(** * Ensemble beauty prediction: a shallow embedding of [api/beauty_ensemble.py]

    The module keeps two process-wide interpreter slots that are filled on
    first use, prepares an image once per model, runs both interpreters and
    fuses the two scores.  The embedding below follows the Python text
    function by function:

    - Python [float] is IEEE binary64; the code is written over a small
      numeric interface and run on the kernel's primitive floats
      ([binary64]).  Where a property speaks of the real number a float
      stands for, that number is read off the IEEE representation
      ([has_value]).
    - [try ... except Exception] blocks become a sum [PyException + A]
      that the handler eliminates.
    - the two module globals and the local [result] dictionary are threaded
      explicitly; a ghost [trace] records every call that leaves the module
      (load, preprocessing, inference).
    - TensorFlow Lite, PIL and numpy are outside the repository: their
      outcomes are fields of a [Runtime] record.
    - the getters take no lock; callers that overlap are modelled by
      interleaving the statements of the getter.

    Definitions come first (Python values, the arithmetic, the module,
    a scripted runtime for concrete runs); the properties follow, grouped
    by the part of the module they concern. *)

From Stdlib Require Import Bool List String Ascii Arith Lia.
From Stdlib Require Import PrimFloat SpecFloat FloatOps FloatAxioms.
From Stdlib Require Import ZArith QArith Lqa.
Import ListNotations.

Set Implicit Arguments.
Set Warnings "-inexact-float".

Local Open Scope list_scope.
Local Open Scope string_scope.

(** ** Python values used by the module *)

Module Py.

(** The exceptions that can reach a handler of this module.  [str] is the
    message the f-strings of the handlers interpolate. *)
Inductive PyException : Type :=
| ZeroDivisionError (msg : string)
| Exception (msg : string).

Definition str (e : PyException) : string :=
  match e with
  | ZeroDivisionError msg => msg
  | Exception msg => msg
  end.

Definition class_name (e : PyException) : string :=
  match e with
  | ZeroDivisionError _ => "ZeroDivisionError"
  | Exception _ => "Exception"
  end.

(** The arithmetic the module needs from its weights and scores. *)
Class Number (F : Type) : Type := {
  add : F -> F -> F;
  mul : F -> F -> F;
  div : F -> F -> F;      (* quotient for a non-zero divisor *)
  eqb : F -> F -> bool;   (* Python [==] *)
  leb : F -> F -> bool;   (* Python [<=] *)
  zero : F;
  one : F
}.

(** Python [x / y]: raises on a zero divisor instead of producing an
    infinity or a NaN.  The message is CPython's for float operands, which
    is what [argparse] with [type=float] and [float(...)] hand to the
    module. *)
Definition truediv {F} `{Number F} (x y : F) : PyException + F :=
  if eqb y zero then inl (ZeroDivisionError "float division by zero")
  else inr (div x y).

(** Python [x != y]. *)
Definition ne {F} `{Number F} (x y : F) : bool := negb (eqb x y).

(** The smaller and the larger of two numbers. *)
Definition min {F} `{Number F} (a b : F) : F := if leb a b then a else b.
Definition max {F} `{Number F} (a b : F) : F := if leb a b then b else a.

(** [lo <= x <= hi]. *)
Definition between {F} `{Number F} (lo hi x : F) : bool :=
  leb lo x && leb x hi.

(** [needle in text] on strings. *)
Definition mentions (needle text : string) : bool :=
  match String.index 0 needle text with
  | Some _ => true
  | None => false
  end.

End Py.

Import Py.

(** ** The arithmetic *)

(** IEEE 754 binary64 with round-to-nearest-even: Python's [float]. *)
#[export] Instance binary64 : Number float := {
  add := PrimFloat.add;
  mul := PrimFloat.mul;
  div := PrimFloat.div;
  eqb := PrimFloat.eqb;
  leb := PrimFloat.leb;
  zero := 0%float;
  one := 1%float
}.

(** *** The real number behind a binary64 value

    A finite binary64 number with mantissa [m] and exponent [e] stands for
    the real [m * 2^e], and its exponent is at least -1074: it is a whole
    number of steps of [2^-1074].  Infinities and NaN stand for no real. *)

Definition steps_per_unit : positive := 2 ^ 1074.

Definition magnitude (m : positive) (e : Z) : Z :=
  (Z.pos m * 2 ^ (e + 1074))%Z.

Definition SFsteps (x : spec_float) : option Z :=
  match x with
  | S754_zero _ => Some 0%Z
  | S754_finite s m e =>
      Some (if s then - magnitude m e else magnitude m e)%Z
  | S754_infinity _ | S754_nan => None
  end.

(** [x] is finite and stands for the rational [q]. *)
Definition has_value (x : float) (q : Q) : Prop :=
  exists n : Z,
    SFsteps (Prim2SF x) = Some n /\ Qeq (Qmake n steps_per_unit) q.

(** ** The module *)

Module Ensemble.

Inductive Model : Type := SCUT | MEBeauty.

Definition MODELS_DIR : string := "models".
Definition SCUT_MODEL_PATH : string :=
  MODELS_DIR ++ "/beauty_model_scut_resnet50.tflite".
Definition MEBEAUTY_MODEL_PATH : string :=
  MODELS_DIR ++ "/beauty_model_mebeauty_resnet50.tflite".

Definition model_path (m : Model) : string :=
  match m with
  | SCUT => SCUT_MODEL_PATH
  | MEBeauty => MEBEAUTY_MODEL_PATH
  end.

(** Calls that leave the module, with whether they produced a value. *)
Inductive Event : Type :=
| EvLoad (path : string) (ok : bool)
| EvPreprocess (m : Model) (ok : bool)
| EvPredict (m : Model) (ok : bool).

Definition is_load (e : Event) : bool :=
  match e with EvLoad _ _ => true | _ => false end.

Definition is_load_of (path : string) (e : Event) : bool :=
  match e with EvLoad p _ => String.eqb p path | _ => false end.

(** The dictionary built by [predict_beauty_ensemble]. *)
Record Result (F : Type) : Type := mkResult {
  ensemble_score : option F;
  scut_score : option F;
  mebeauty_score : option F;
  error : option string
}.

Arguments mkResult {F} _ _ _ _.

Definition present {A} (o : option A) : bool :=
  match o with Some _ => true | None => false end.

(** Reading the two per-model entries by model. *)
Definition score_of {F} (m : Model) (r : Result F) : option F :=
  match m with
  | SCUT => scut_score r
  | MEBeauty => mebeauty_score r
  end.

Definition other (m : Model) : Model :=
  match m with
  | SCUT => MEBeauty
  | MEBeauty => SCUT
  end.

(** The name the diagnostics use for each model. *)
Definition model_name (m : Model) : string :=
  match m with
  | SCUT => "SCUT"
  | MEBeauty => "MEBeauty"
  end.

Section WithRuntime.

Context {F : Type} `{Number F}.
Variables Image Tensor Interpreter : Type.

(** What the libraries do.  Each field is the body of one [try] block of
    the module, seen from outside: it yields a value or raises.  The two
    preprocessing functions have the same statements but each run opens and
    decodes the image itself, so their outcomes are separate observations.
    A load is indexed by the number of loads the process has already
    attempted, so an artifact may be missing at one time and present
    later.  The other three fields are consulted at most once by a call;
    a property that compares the records of two calls takes a runtime for
    each, so that nothing is assumed about a library answering twice
    alike. *)
Record Runtime : Type := {
  tflite_Interpreter : nat -> string -> PyException + Interpreter;
  scut_pipeline : Image -> PyException + Tensor;
  mebeauty_pipeline : Image -> PyException + Tensor;
  tflite_invoke : Interpreter -> Tensor -> PyException + F
}.

Variable rt : Runtime.

(** Module globals (lines 57-58) and the ghost trace, newest event first. *)
Record Process : Type := mkProcess {
  scut_interpreter : option Interpreter;
  mebeauty_interpreter : option Interpreter;
  trace : list Event
}.

Definition fresh_process : Process := mkProcess None None [].

Definition emit (e : Event) (p : Process) : Process :=
  mkProcess (scut_interpreter p) (mebeauty_interpreter p) (e :: trace p).

Definition load_attempts (p : Process) : nat :=
  List.length (List.filter is_load (trace p)).

(** [load_tflite_model] (lines 43-53). *)
Definition load_tflite_model (path : string) (p : Process)
  : option Interpreter * Process :=
  match tflite_Interpreter rt (load_attempts p) path with
  | inr interpreter => (Some interpreter, emit (EvLoad path true) p)
  | inl _ => (None, emit (EvLoad path false) p)
  end.

(** [get_scut_model] (lines 61-66). *)
Definition get_scut_model (p : Process) : option Interpreter * Process :=
  match scut_interpreter p with
  | None =>
      let (loaded, p1) := load_tflite_model SCUT_MODEL_PATH p in
      let p2 := mkProcess loaded (mebeauty_interpreter p1) (trace p1) in
      (scut_interpreter p2, p2)
  | Some _ => (scut_interpreter p, p)
  end.

(** [get_mebeauty_model] (lines 69-74). *)
Definition get_mebeauty_model (p : Process) : option Interpreter * Process :=
  match mebeauty_interpreter p with
  | None =>
      let (loaded, p1) := load_tflite_model MEBEAUTY_MODEL_PATH p in
      let p2 := mkProcess (scut_interpreter p1) loaded (trace p1) in
      (mebeauty_interpreter p2, p2)
  | Some _ => (mebeauty_interpreter p, p)
  end.

(** [preprocess_for_scut] (lines 77-117): the handler turns any exception
    of the pipeline into [None]. *)
Definition preprocess_for_scut (image : Image) : option Tensor :=
  match scut_pipeline rt image with
  | inr img_array => Some img_array
  | inl _ => None
  end.

(** [preprocess_for_mebeauty] (lines 120-160). *)
Definition preprocess_for_mebeauty (image : Image) : option Tensor :=
  match mebeauty_pipeline rt image with
  | inr img_array => Some img_array
  | inl _ => None
  end.

(** [predict_with_tflite] (lines 163-205). *)
Definition predict_with_tflite (interpreter : Interpreter)
  (preprocessed_image : Tensor) : option F :=
  match tflite_invoke rt interpreter preprocessed_image with
  | inr output => Some output
  | inl _ => None
  end.

(** *** The body of [predict_beauty_ensemble]

    The [try] block runs in a state-and-exception monad whose state is the
    process together with the local [result]; an exception keeps the state
    reached so far, as the handler sees it. *)

Record Frame : Type := mkFrame {
  proc : Process;
  result : Result F
}.

Definition M (A : Type) : Type := Frame -> (PyException + A) * Frame.

Definition ret {A} (a : A) : M A := fun fr => (inr a, fr).

Definition bind {A B} (c : M A) (k : A -> M B) : M B :=
  fun fr =>
    match c fr with
    | (inr a, fr1) => k a fr1
    | (inl e, fr1) => (inl e, fr1)
    end.

Definition lift {A} (r : PyException + A) : M A := fun fr => (r, fr).

(** A call that reads or writes the module globals. *)
Definition global {A} (c : Process -> A * Process) : M A :=
  fun fr =>
    let (a, p) := c (proc fr) in
    (inr a, mkFrame p (result fr)).

(** A pure library call, recorded in the trace. *)
Definition observe {A} (ev : bool -> Event) (r : option A) : M (option A) :=
  fun fr =>
    (inr r, mkFrame (emit (ev (present r)) (proc fr)) (result fr)).

(** [result[key] = value]. *)
Definition update (f : Result F -> Result F) : M unit :=
  fun fr => (inr tt, mkFrame (proc fr) (f (result fr))).

Definition set_ensemble_score (v : option F) (r : Result F) : Result F :=
  mkResult v (scut_score r) (mebeauty_score r) (error r).
Definition set_scut_score (v : option F) (r : Result F) : Result F :=
  mkResult (ensemble_score r) v (mebeauty_score r) (error r).
Definition set_mebeauty_score (v : option F) (r : Result F) : Result F :=
  mkResult (ensemble_score r) (scut_score r) v (error r).
Definition set_error (v : option string) (r : Result F) : Result F :=
  mkResult (ensemble_score r) (scut_score r) (mebeauty_score r) v.

Notation "x <- c ;; k" := (bind c (fun x => k))
  (at level 100, c at next level, right associativity).
Notation "c ;;; k" := (bind c (fun _ => k))
  (at level 100, right associativity).

(** Lines 229-232: the weights the fusion will use. *)
Definition normalized_weights (scut_weight mebeauty_weight : F)
  : PyException + (F * F) :=
  let total_weight := add scut_weight mebeauty_weight in
  if ne total_weight one then
    match truediv scut_weight total_weight with
    | inl e => inl e
    | inr sw =>
        match truediv mebeauty_weight total_weight with
        | inl e => inl e
        | inr mw => inr (sw, mw)
        end
    end
  else inr (scut_weight, mebeauty_weight).

(** Lines 228-274, the inside of the [try]. *)
Definition try_block (image : Image) (scut_weight mebeauty_weight : F)
  : M unit :=
  w <- lift (normalized_weights scut_weight mebeauty_weight) ;;
  let (scut_weight, mebeauty_weight) := (w : F * F) in
  scut_model <- global get_scut_model ;;
  mebeauty_model <- global get_mebeauty_model ;;
  match scut_model, mebeauty_model with
  | Some scut_model, Some mebeauty_model =>
      scut_img <- observe (EvPreprocess SCUT) (preprocess_for_scut image) ;;
      mebeauty_img <-
        observe (EvPreprocess MEBeauty) (preprocess_for_mebeauty image) ;;
      match scut_img, mebeauty_img with
      | Some scut_img, Some mebeauty_img =>
          scut_score <-
            observe (EvPredict SCUT)
                    (predict_with_tflite scut_model scut_img) ;;
          mebeauty_score <-
            observe (EvPredict MEBeauty)
                    (predict_with_tflite mebeauty_model mebeauty_img) ;;
          update (set_scut_score scut_score) ;;;
          update (set_mebeauty_score mebeauty_score) ;;;
          match scut_score, mebeauty_score with
          | Some s, Some m =>
              update (set_ensemble_score
                        (Some (add (mul scut_weight s)
                                   (mul mebeauty_weight m))))
          | Some s, None =>
              update (set_ensemble_score (Some s)) ;;;
              update (set_error
                (Some "MEBeauty model prediction failed, using only SCUT"))
          | None, Some m =>
              update (set_ensemble_score (Some m)) ;;;
              update (set_error
                (Some "SCUT model prediction failed, using only MEBeauty"))
          | None, None =>
              update (set_error (Some "Both model predictions failed"))
          end
      | _, _ =>
          update (set_error
            (Some "Failed to preprocess image for one or both models"))
      end
  | _, _ => update (set_error (Some "Failed to load one or both models"))
  end.

Definition initial_result : Result F := mkResult None None None None.

(** [predict_beauty_ensemble] (lines 208-281): the handler of line 276
    overwrites [result["error"]] and falls through to [return result]. *)
Definition predict_beauty_ensemble (image : Image)
  (scut_weight mebeauty_weight : F) (p : Process) : Result F * Process :=
  match try_block image scut_weight mebeauty_weight
                  (mkFrame p initial_result) with
  | (inr _, fr) => (result fr, proc fr)
  | (inl e, fr) =>
      (set_error (Some ("Error in ensemble prediction: " ++ str e))
                 (result fr),
       proc fr)
  end.

(** *** The cache seen by model *)

Definition slot (m : Model) (p : Process) : option Interpreter :=
  match m with
  | SCUT => scut_interpreter p
  | MEBeauty => mebeauty_interpreter p
  end.

Definition set_slot (m : Model) (v : option Interpreter) (p : Process)
  : Process :=
  match m with
  | SCUT => mkProcess v (mebeauty_interpreter p) (trace p)
  | MEBeauty => mkProcess (scut_interpreter p) v (trace p)
  end.

Definition get_model (m : Model) : Process -> option Interpreter * Process :=
  match m with
  | SCUT => get_scut_model
  | MEBeauty => get_mebeauty_model
  end.

(** The outcome of a load attempted now. *)
Definition loaded_now (m : Model) (p : Process) : option Interpreter :=
  match tflite_Interpreter rt (load_attempts p) (model_path m) with
  | inr h => Some h
  | inl _ => None
  end.

(** What a client of the module can do to the process. *)
Inductive Call : Type :=
| Get (m : Model)
| Predict (image : Image) (scut_weight mebeauty_weight : F).

Definition run_call (c : Call) (p : Process) : Process :=
  match c with
  | Get m => snd (get_model m p)
  | Predict image w1 w2 => snd (predict_beauty_ensemble image w1 w2 p)
  end.

Definition run_calls (cs : list Call) (p : Process) : Process :=
  List.fold_left (fun q c => run_call c q) cs p.

(** *** Callers that overlap

    A getter is three statements: the test of line 64 (72), the load and
    assignment of line 65 (73) and the return of line 66 (74).  The module
    takes no lock, so a caller can be suspended between any two of them.
    Each statement is taken as one atomic step here; a finer grain only
    adds interleavings. *)

Inductive Pc : Type :=
| AtTest
| AtLoad
| AtReturn
| Returned (r : option Interpreter).

Definition step (m : Model) (pc : Pc) (shared : Process) : Pc * Process :=
  match pc with
  | AtTest =>
      match slot m shared with
      | None => (AtLoad, shared)
      | Some _ => (AtReturn, shared)
      end
  | AtLoad =>
      let (loaded, p1) := load_tflite_model (model_path m) shared in
      (AtReturn, set_slot m loaded p1)
  | AtReturn => (Returned (slot m shared), shared)
  | Returned r => (Returned r, shared)
  end.

Record Pool : Type := mkPool {
  shared : Process;
  callers : list Pc
}.

Fixpoint update_nth (i : nat) (pc : Pc) (l : list Pc) : list Pc :=
  match l, i with
  | [], _ => []
  | _ :: tl, O => pc :: tl
  | hd :: tl, S j => hd :: update_nth j pc tl
  end.

(** Caller [i] executes its next statement. *)
Definition step_caller (m : Model) (i : nat) (pool : Pool) : Pool :=
  match List.nth_error (callers pool) i with
  | None => pool
  | Some pc =>
      let (pc', shared') := step m pc (shared pool) in
      mkPool shared' (update_nth i pc' (callers pool))
  end.

Definition run_schedule (m : Model) (schedule : list nat) (pool : Pool)
  : Pool :=
  List.fold_left (fun q i => step_caller m i q) schedule pool.

(** [n] callers about to enter the getter. *)
Definition entering (n : nat) (p : Process) : Pool :=
  mkPool p (List.repeat AtTest n).

(** Callers [first .. first + n - 1] run one after another, each to its
    return before the next starts. *)
Definition one_at_a_time (first n : nat) : list nat :=
  List.flat_map (fun i => [i; i; i]) (List.seq first n).

(** One caller running alone from the test to past its return. *)
Definition getter_steps (m : Model) (p : Process) : Pc * Process :=
  let (pc1, q1) := step m AtTest p in
  let (pc2, q2) := step m pc1 q1 in
  step m pc2 q2.

Definition loads_of (path : string) (evs : list Event) : nat :=
  List.length (List.filter (is_load_of path) evs).

(** The events a call added to the trace. *)
Definition events_since (before after : Process) : list Event :=
  List.firstn (List.length (trace after) - List.length (trace before))
              (trace after).

End WithRuntime.

Arguments Get {F Image} m.
Arguments AtTest {Interpreter}.
Arguments AtLoad {Interpreter}.
Arguments AtReturn {Interpreter}.

End Ensemble.

Import Ensemble.

(** ** A scripted runtime

    A test double for the libraries: which loads succeed, whether each
    preprocessing run succeeds and what each model outputs are given by a
    script.  A loaded interpreter is identified by the load attempt that
    created it and by its artifact, so two loads never yield the same
    object. *)

Module Scripted.

Record Script (F : Type) : Type := {
  load_ok : nat -> string -> bool;
  scut_image_ok : bool;
  mebeauty_image_ok : bool;
  scut_output : option F;
  mebeauty_output : option F
}.

Definition Handle : Type := (nat * string)%type.

Definition runtime {F} (sc : Script F) : Runtime (F:=F) unit Model Handle := {|
  tflite_Interpreter := fun n path =>
    if load_ok sc n path then inr (n, path)
    else inl (Exception "Could not open model file");
  scut_pipeline := fun _ =>
    if scut_image_ok sc then inr SCUT
    else inl (Exception "cannot identify image file");
  mebeauty_pipeline := fun _ =>
    if mebeauty_image_ok sc then inr MEBeauty
    else inl (Exception "cannot identify image file");
  tflite_invoke := fun h _ =>
    match (if String.eqb (snd h) SCUT_MODEL_PATH
           then scut_output sc else mebeauty_output sc) with
    | Some y => inr y
    | None => inl (Exception "Failed to invoke the interpreter")
    end
|}.

(** Every artifact loads, every image decodes; the models output [a], [b]. *)
Definition healthy {F} (a b : option F) : Script F := {|
  load_ok := fun _ _ => true;
  scut_image_ok := true;
  mebeauty_image_ok := true;
  scut_output := a;
  mebeauty_output := b
|}.

End Scripted.

(** ** Scripts and auxiliary notions used by the examples *)

Local Open Scope float_scope.

(** Loads succeed except those the predicate [missing] names. *)
Definition with_missing (missing : string -> bool) (a b : option float)
  : Scripted.Script float := {|
  Scripted.load_ok := fun _ path => negb (missing path);
  Scripted.scut_image_ok := true;
  Scripted.mebeauty_image_ok := true;
  Scripted.scut_output := a;
  Scripted.mebeauty_output := b
|}.

(** The image decodes for MEBeauty but not for SCUT. *)
Definition scut_image_broken (a b : option float) : Scripted.Script float := {|
  Scripted.load_ok := fun _ _ => true;
  Scripted.scut_image_ok := false;
  Scripted.mebeauty_image_ok := true;
  Scripted.scut_output := a;
  Scripted.mebeauty_output := b
|}.

(** The first load attempt of the process fails, later ones succeed. *)
Definition first_load_fails : Scripted.Script float := {|
  Scripted.load_ok := fun n _ => Nat.leb 1 n;
  Scripted.scut_image_ok := true;
  Scripted.mebeauty_image_ok := true;
  Scripted.scut_output := Some 3;
  Scripted.mebeauty_output := Some 4
|}.

Local Close Scope float_scope.

(** The class of error a call is rejected with: the class of the exception
    its [try] block raises. *)
Definition rejected_as {Image Tensor Interpreter : Type}
  (rt : Runtime (F:=float) Image Tensor Interpreter) (image : Image)
  (w1 w2 : float) (p : Process Interpreter) (class : string) : Prop :=
  exists e fr,
    try_block rt image w1 w2 (mkFrame p initial_result) = (inl e, fr)
    /\ class_name e = class.

(** ** The callers of [predict_beauty_ensemble]

    [test_ensemble] of the module itself and [main] of [test_ensemble.py]
    call the function with a path, on Python floats, and report through the
    logger and standard output.  A reported line is kept as its pieces: a
    float interpolated with a format is the value together with the format,
    so nothing is assumed about how digits are printed.  Only the lines the
    caller itself writes are recorded. *)

Module Callers.

Inductive Piece : Type :=
| Text (s : string)
| Fixed2 (x : float)      (* [{x:.2f}] *)
| Shown (x : float).      (* [{x}] *)

Inductive Channel : Type := LogInfo | LogError | Stdout.

Record Line : Type := mkLine {
  channel : Channel;
  pieces : list Piece
}.

(** [TypeError], the one exception these callers can raise themselves. *)
Inductive TypeError : Type := mkTypeError (msg : string).

(** [f"{v:.2f}"]: [None] does not accept a format specification. *)
Definition format_2f (v : option float) : TypeError + Piece :=
  match v with
  | Some x => inr (Fixed2 x)
  | None =>
      inl (mkTypeError
             "unsupported format string passed to NoneType.__format__")
  end.

(** Truth value of [result["error"]] and of [result.get("error")]: [None]
    and the empty string are false. *)
Definition truthy (v : option string) : bool :=
  match v with
  | Some s => negb (String.eqb s "")
  | None => false
  end.

Definition text_of (v : option string) : string :=
  match v with
  | Some s => s
  | None => "None"
  end.

Section WithRuntime.

Variables Tensor Interpreter : Type.
Variable rt : Runtime (F:=float) string Tensor Interpreter.

(** [os.path.exists]. *)
Variable path_exists : string -> bool.

(** [test_ensemble] (beauty_ensemble.py, lines 285-297). *)
Definition test_ensemble (image_path : string) (p : Process Interpreter)
  : (TypeError + Result float) * list Line * Process Interpreter :=
  let started :=
    [mkLine LogInfo [Text "Testing ensemble prediction on ";
                     Text image_path; Text "..."]] in
  let (result, p1) :=
    predict_beauty_ensemble rt image_path 0.5%float 0.5%float p in
  if truthy (error result) then
    (inr result,
     started ++ [mkLine LogError [Text "Ensemble prediction error: ";
                                  Text (text_of (error result))]],
     p1)%list
  else
    match format_2f (scut_score result) with
    | inl e => (inl e, started, p1)
    | inr scut =>
        let out1 := (started ++ [mkLine LogInfo [Text "SCUT score: "; scut]])%list in
        match format_2f (mebeauty_score result) with
        | inl e => (inl e, out1, p1)
        | inr mebeauty =>
            let out2 :=
              (out1 ++ [mkLine LogInfo [Text "MEBeauty score: "; mebeauty]])%list in
            match format_2f (ensemble_score result) with
            | inl e => (inl e, out2, p1)
            | inr ensemble =>
                (inr result,
                 out2 ++ [mkLine LogInfo [Text "Ensemble score: "; ensemble]],
                 p1)%list
            end
        end
    end.

(** The parsed command line of [test_ensemble.py]. *)
Record Args : Type := mkArgs {
  image_path : string;
  scut_weight : float;
  mebeauty_weight : float
}.

Definition rule : string := "----------------------------------------".

(** [main] (test_ensemble.py, lines 13-54), after [parse_args]; the value
    is the exit status handed to [sys.exit].  The newline that opens the
    results header is an empty line of its own. *)
Definition main (args : Args) (p : Process Interpreter)
  : (TypeError + nat) * list Line * Process Interpreter :=
  if negb (path_exists (image_path args)) then
    (inr 1%nat,
     [mkLine Stdout [Text "Error: Image file not found: ";
                     Text (image_path args)]],
     p)
  else
    let out0 :=
      [mkLine Stdout [Text "Running ensemble prediction on ";
                      Text (image_path args); Text "..."];
       mkLine Stdout [Text "Weights: SCUT="; Shown (scut_weight args);
                      Text ", MEBeauty="; Shown (mebeauty_weight args)]] in
    let (result, p1) :=
      predict_beauty_ensemble rt (image_path args)
        (scut_weight args) (mebeauty_weight args) p in
    let out1 :=
      (out0 ++ [mkLine Stdout []; mkLine Stdout [Text "Results:"];
                mkLine Stdout [Text rule]])%list in
    if truthy (error result) then
      (inr 1%nat,
       out1 ++ [mkLine Stdout [Text "Error: "; Text (text_of (error result))]],
       p1)%list
    else
      match format_2f (scut_score result) with
      | inl e => (inl e, out1, p1)
      | inr scut =>
          let out2 :=
            (out1 ++ [mkLine Stdout [Text "SCUT score:      "; scut;
                                     Text "/5.00"]])%list in
          match format_2f (mebeauty_score result) with
          | inl e => (inl e, out2, p1)
          | inr mebeauty =>
              let out3 :=
                (out2 ++ [mkLine Stdout [Text "MEBeauty score:  "; mebeauty;
                                         Text "/5.00"]])%list in
              match format_2f (ensemble_score result) with
              | inl e => (inl e, out3, p1)
              | inr ensemble =>
                  (inr 0%nat,
                   out3 ++ [mkLine Stdout [Text "Ensemble score:  "; ensemble;
                                           Text "/5.00"]],
                   p1)%list
              end
          end
      end.

End WithRuntime.

End Callers.

(** ** Stages by model *)

(** The preprocessing function the call applies for a model. *)
Definition preprocess_for {F Image Tensor Interpreter : Type}
  (rt : Runtime (F:=F) Image Tensor Interpreter) (m : Model)
  : Image -> option Tensor :=
  match m with
  | SCUT => preprocess_for_scut rt
  | MEBeauty => preprocess_for_mebeauty rt
  end.

(** ** Counting in traces *)

Definition is_successful_load_of (path : string) (e : Event) : bool :=
  match e with
  | EvLoad p ok => String.eqb p path && ok
  | _ => false
  end.

Definition successful_loads (path : string) (evs : list Event) : nat :=
  List.length (List.filter (is_successful_load_of path) evs).

(** The cache agrees with the trace: an artifact has one successful load
    behind it when its slot is filled and none when the slot is empty. *)
Definition loaded_once {Interpreter : Type} (p : Process Interpreter) : Prop :=
  forall m : Model,
    successful_loads (model_path m) (trace p)
    = if present (slot m p) then 1%nat else 0%nat.

(** How many loads a caller of a getter can still perform: one until it has
    passed the load statement or skipped it. *)
Definition waiting {Interpreter : Type} (pc : Pc Interpreter) : nat :=
  match pc with
  | AtTest | AtLoad => 1
  | AtReturn | Returned _ => 0
  end.

Definition pending {Interpreter : Type} (l : list (Pc Interpreter)) : nat :=
  List.fold_right (fun pc n => (waiting pc + n)%nat) 0%nat l.

(** A caller that cannot return anything but [h]. *)
Definition bound_to {Interpreter : Type} (h : Interpreter)
  (pc : Pc Interpreter) : Prop :=
  match pc with
  | AtTest | AtReturn => True
  | AtLoad => False
  | Returned r => r = Some h
  end.

(** ** Facts about one call *)

Section CallFacts.

Context {F : Type} `{Number F}.
Variables Image Tensor Interpreter : Type.
Variable rt : Runtime (F:=F) Image Tensor Interpreter.

Lemma events_since_same (p : Process Interpreter) : events_since p p = [].
Proof.
  unfold events_since. now rewrite Nat.sub_diag.
Qed.

Lemma events_since_prefix (p : Process Interpreter) (a b : option Interpreter)
  (new : list Event) :
  events_since p (mkProcess a b (new ++ trace p)%list) = new.
Proof.
  unfold events_since; simpl.
  rewrite List.length_app, Nat.add_sub.
  now rewrite List.firstn_app, Nat.sub_diag, List.firstn_all, List.app_nil_r.
Qed.

Lemma normalized_weights_inr (w1 w2 sw mw : F) :
  normalized_weights w1 w2 = inr (sw, mw) ->
  (sw, mw) =
    (if ne (add w1 w2) one
     then (div w1 (add w1 w2), div w2 (add w1 w2))
     else (w1, w2))
  /\ (ne (add w1 w2) one = true -> eqb (add w1 w2) zero = false).
Proof.
  unfold normalized_weights, truediv.
  destruct (ne (add w1 w2) one); [destruct (eqb (add w1 w2) zero) |];
    intros E; inversion E; split; auto; discriminate.
Qed.

Lemma normalized_weights_inl (w1 w2 : F) (e : PyException) :
  normalized_weights w1 w2 = inl e ->
  e = ZeroDivisionError "float division by zero"
  /\ eqb (add w1 w2) zero = true /\ ne (add w1 w2) one = true.
Proof.
  unfold normalized_weights, truediv.
  destruct (ne (add w1 w2) one); [destruct (eqb (add w1 w2) zero) |];
    intros E; inversion E; auto.
Qed.

End CallFacts.

(** Unfolds one call down to the outcomes of the library calls and splits
    on each of them. *)
Ltac unfold_call :=
  unfold predict_beauty_ensemble, try_block, bind, lift, global, observe,
    update, get_scut_model, get_mebeauty_model, load_tflite_model,
    preprocess_for_scut, preprocess_for_mebeauty, predict_with_tflite,
    initial_result, emit; simpl.

Ltac split_outcomes :=
  repeat (simpl;
          match goal with
          | |- context [match ?x with _ => _ end] =>
              lazymatch x with
              | context [match _ with _ => _ end] => fail
              | _ => destruct x eqn:?
              end
          end).

Ltac new_events t p :=
  match t with
  | trace p => constr:(@nil Event)
  | ?e :: ?l => let n := new_events l p in constr:(e :: n)
  end.

Ltac events_of_call :=
  repeat match goal with
         | |- context [events_since ?p (mkProcess ?a ?b ?t)] =>
             let n := new_events t p in
             change (events_since p (mkProcess a b t))
               with (events_since p (mkProcess a b (n ++ trace p)%list));
             rewrite (events_since_prefix p a b n)
         end.

(** Case analysis on a hypothesis that an event is in an explicit list. *)
Ltac which_event :=
  repeat match goal with
         | Hor : _ \/ _ |- _ => destruct Hor
         | Hf : False |- _ => destruct Hf
         | Heq : @eq Event _ _ |- _ => try discriminate Heq; clear Heq
         end.

Ltac no_such_event :=
  repeat match goal with
         | Hor : _ \/ _ |- _ => destruct Hor
         | Hf : False |- _ => destruct Hf
         | Heq : @eq Event _ _ |- _ => discriminate Heq
         end.

(** Closes an equation by the outcomes already chosen for the library
    calls it mentions. *)
Ltac recall_outcomes :=
  simpl;
  repeat match goal with
         | Hx : ?x = _ |- context [?x] => rewrite Hx
         end;
  reflexivity.

Ltac call_cases :=
  unfold_call; split_outcomes;
  unfold set_error, set_ensemble_score, set_scut_score, set_mebeauty_score;
  simpl; rewrite ?events_since_same; events_of_call; simpl.

(** ** Fusion *)

Section Fusion.

Context {F : Type} `{Number F}.
Variables Image Tensor Interpreter : Type.
Variable rt : Runtime (F:=F) Image Tensor Interpreter.

(** When both scores are stored, the normalization did not raise and the
    fused score combines them under the weights it produced. *)
Lemma fused_under_normalized_weights (image : Image) (w1 w2 : F)
  (p : Process Interpreter) (s m : F) :
  let r := fst (predict_beauty_ensemble rt image w1 w2 p) in
  scut_score r = Some s ->
  mebeauty_score r = Some m ->
  exists sw mw,
    normalized_weights w1 w2 = inr (sw, mw)
    /\ ensemble_score r = Some (add (mul sw s) (mul mw m)).
Proof.
  call_cases; try discriminate;
    intros Hs Hm; inversion Hs; inversion Hm; subst;
    eexists; eexists; split; reflexivity.
Qed.

(** C1. Whenever a call stores a score for both models, the fused score is
    the weighted sum of the two scores under the normalized weights: the
    weights divided by their sum when that sum is not one, the weights as
    given otherwise. *)
Theorem fused_score_is_weighted_sum (image : Image) (w1 w2 : F)
  (p : Process Interpreter) (s m : F) :
  let r := fst (predict_beauty_ensemble rt image w1 w2 p) in
  scut_score r = Some s ->
  mebeauty_score r = Some m ->
  ensemble_score r =
    Some (if ne (add w1 w2) one
          then add (mul (div w1 (add w1 w2)) s) (mul (div w2 (add w1 w2)) m)
          else add (mul w1 s) (mul w2 m))
  /\ error r = None.
Proof.
  call_cases; try discriminate;
    intros Hs Hm; inversion Hs; inversion Hm; subst;
    match goal with
    | Hn : normalized_weights _ _ = inr _, Hb : ne _ _ = _ |- _ =>
        apply normalized_weights_inr in Hn as [Hn _];
        rewrite Hb in Hn; inversion Hn; subst; auto
    end.
Qed.

(** When one prediction of a call returned a value and the other failed,
    the value is what [predict_with_tflite] gave for the surviving model on
    its cached interpreter and its prepared image; the record stores it for
    that model and as the fused score, stores nothing for the other model,
    and its diagnostic names the other model as failed. *)
Lemma survivor_is_fused (image : Image) (w1 w2 : F)
  (p : Process Interpreter) (survivor : Model) :
  let out := predict_beauty_ensemble rt image w1 w2 p in
  List.In (EvPredict survivor true) (events_since p (snd out)) ->
  List.In (EvPredict (other survivor) false) (events_since p (snd out)) ->
  exists h t S,
    slot survivor (snd out) = Some h
    /\ preprocess_for rt survivor image = Some t
    /\ predict_with_tflite rt h t = Some S
    /\ score_of survivor (fst out) = Some S
    /\ score_of (other survivor) (fst out) = None
    /\ ensemble_score (fst out) = Some S
    /\ error (fst out) =
         Some (model_name (other survivor)
               ++ " model prediction failed, using only "
               ++ model_name survivor).
Proof.
  destruct survivor; call_cases; intros H1 H2; which_event;
    try (exfalso; assumption);
    eexists; eexists; eexists;
    unfold preprocess_for, preprocess_for_scut, preprocess_for_mebeauty,
      predict_with_tflite;
    repeat (split; [recall_outcomes |]); recall_outcomes.
Qed.

(** C2. When exactly one prediction of a call succeeds and the other
    fails, the fused score is the score [S] the surviving model returned,
    whatever the weights, and the diagnostic names the model that
    failed. *)
Theorem single_model_fallback (image : Image) (w1 w2 : F)
  (p : Process Interpreter) (survivor : Model) :
  let out := predict_beauty_ensemble rt image w1 w2 p in
  List.In (EvPredict survivor true) (events_since p (snd out)) ->
  List.In (EvPredict (other survivor) false) (events_since p (snd out)) ->
  exists h t S,
    slot survivor (snd out) = Some h
    /\ preprocess_for rt survivor image = Some t
    /\ predict_with_tflite rt h t = Some S
    /\ ensemble_score (fst out) = Some S
    /\ score_of survivor (fst out) = Some S
    /\ score_of (other survivor) (fst out) = None
    /\ error (fst out) =
         Some (model_name (other survivor)
               ++ " model prediction failed, using only "
               ++ model_name survivor)
    /\ mentions (model_name (other survivor))
         (model_name (other survivor)
          ++ " model prediction failed, using only "
          ++ model_name survivor) = true.
Proof.
  intros out H1 H2.
  destruct (survivor_is_fused image w1 w2 p survivor H1 H2)
    as (h & t & S & Hh & Ht & HS & Hs & Ho & Hf & He).
  exists h, t, S. repeat split; try assumption.
  destruct survivor; reflexivity.
Qed.

(** C3. When both predictions of a call were attempted and failed, the
    [try] block still completes without raising, and the call returns the
    record with no fused score, no per-model score and the diagnostic that
    both predictions failed. *)
Theorem both_predictions_failed (image : Image) (w1 w2 : F)
  (p : Process Interpreter) :
  let out := predict_beauty_ensemble rt image w1 w2 p in
  List.In (EvPredict SCUT false) (events_since p (snd out)) ->
  List.In (EvPredict MEBeauty false) (events_since p (snd out)) ->
  fst out = mkResult None None None (Some "Both model predictions failed")
  /\ ensemble_score (fst out) = None
  /\ exists fr,
       try_block rt image w1 w2 (mkFrame p initial_result) = (inr tt, fr)
       /\ out = (result fr, proc fr).
Proof.
  unfold predict_beauty_ensemble.
  destruct (try_block rt image w1 w2 (mkFrame p initial_result))
    as [[e | []] fr] eqn:Hrun; revert Hrun;
    call_cases; intros Hrun; inversion Hrun; subst; simpl;
    events_of_call; rewrite ?events_since_same; simpl;
    intros H1 H2; try tauto;
    which_event;
    (split; [reflexivity | split; [reflexivity | eexists; split; reflexivity]]).
Qed.

End Fusion.

(** The scenarios of the fusion properties, run on binary64. *)

Local Open Scope float_scope.

Lemma fused_score_is_weighted_sum_witness :
  let rt := Scripted.runtime (Scripted.healthy (Some 3) (Some 4)) in
  let r := fst (predict_beauty_ensemble rt tt 0.5 0.5
                  (fresh_process Scripted.Handle)) in
  scut_score r = Some 3 /\ mebeauty_score r = Some 4
  /\ ensemble_score r = Some 3.5.
Proof.
  split; [reflexivity | split; [reflexivity |]].
  exact (proj1 (fused_score_is_weighted_sum
                  (Scripted.runtime (Scripted.healthy (Some 3) (Some 4)))
                  tt 0.5 0.5 (fresh_process Scripted.Handle)
                  eq_refl eq_refl)).
Defined.

Lemma single_model_fallback_witness :
  let p := fresh_process Scripted.Handle in
  let scut_only :=
    predict_beauty_ensemble
      (Scripted.runtime (Scripted.healthy (Some 2) None)) tt 0.3 0.7 p in
  let mebeauty_only :=
    predict_beauty_ensemble
      (Scripted.runtime (Scripted.healthy None (Some 4))) tt 0.3 0.7 p in
  (List.In (EvPredict SCUT true) (events_since p (snd scut_only))
   /\ List.In (EvPredict MEBeauty false) (events_since p (snd scut_only))
   /\ ensemble_score (fst scut_only) = Some 2
   /\ error (fst scut_only) =
        Some "MEBeauty model prediction failed, using only SCUT"%string)
  /\ (List.In (EvPredict MEBeauty true) (events_since p (snd mebeauty_only))
      /\ List.In (EvPredict SCUT false) (events_since p (snd mebeauty_only))
      /\ ensemble_score (fst mebeauty_only) = Some 4
      /\ error (fst mebeauty_only) =
           Some "SCUT model prediction failed, using only MEBeauty"%string).
Proof.
  cbv zeta. split.
  - assert (H1 : List.In (EvPredict SCUT true)
                   (events_since (fresh_process Scripted.Handle)
                      (snd (predict_beauty_ensemble
                              (Scripted.runtime
                                 (Scripted.healthy (Some 2) None))
                              tt 0.3 0.7 (fresh_process Scripted.Handle)))))
      by (vm_compute; tauto).
    assert (H2 : List.In (EvPredict (other SCUT) false)
                   (events_since (fresh_process Scripted.Handle)
                      (snd (predict_beauty_ensemble
                              (Scripted.runtime
                                 (Scripted.healthy (Some 2) None))
                              tt 0.3 0.7 (fresh_process Scripted.Handle)))))
      by (vm_compute; tauto).
    split; [exact H1 | split; [exact H2 |]].
    destruct (single_model_fallback
                (Scripted.runtime (Scripted.healthy (Some 2) None))
                tt 0.3 0.7 (fresh_process Scripted.Handle) SCUT H1 H2)
      as (h & t & S & _ & _ & _ & Hf & Hs & _ & He & _).
    split; [rewrite Hf; symmetry; exact Hs | exact He].
  - assert (H1 : List.In (EvPredict MEBeauty true)
                   (events_since (fresh_process Scripted.Handle)
                      (snd (predict_beauty_ensemble
                              (Scripted.runtime
                                 (Scripted.healthy None (Some 4)))
                              tt 0.3 0.7 (fresh_process Scripted.Handle)))))
      by (vm_compute; tauto).
    assert (H2 : List.In (EvPredict (other MEBeauty) false)
                   (events_since (fresh_process Scripted.Handle)
                      (snd (predict_beauty_ensemble
                              (Scripted.runtime
                                 (Scripted.healthy None (Some 4)))
                              tt 0.3 0.7 (fresh_process Scripted.Handle)))))
      by (vm_compute; tauto).
    split; [exact H1 | split; [exact H2 |]].
    destruct (single_model_fallback
                (Scripted.runtime (Scripted.healthy None (Some 4)))
                tt 0.3 0.7 (fresh_process Scripted.Handle) MEBeauty H1 H2)
      as (h & t & S & _ & _ & _ & Hf & Hs & _ & He & _).
    split; [rewrite Hf; symmetry; exact Hs | exact He].
Defined.

Lemma both_predictions_failed_witness :
  let rt := Scripted.runtime (Scripted.healthy (F:=float) None None) in
  let out := predict_beauty_ensemble rt tt 0.5 0.5
               (fresh_process Scripted.Handle) in
  events_since (fresh_process Scripted.Handle) (snd out) =
    [EvPredict MEBeauty false; EvPredict SCUT false;
     EvPreprocess MEBeauty true; EvPreprocess SCUT true;
     EvLoad MEBEAUTY_MODEL_PATH true; EvLoad SCUT_MODEL_PATH true]
  /\ fst out =
       mkResult None None None (Some "Both model predictions failed"%string).
Proof.
  split; [reflexivity |].
  refine (proj1 (both_predictions_failed
                   (Scripted.runtime (Scripted.healthy (F:=float) None None))
                   tt 0.5 0.5 (fresh_process Scripted.Handle) _ _));
    vm_compute; tauto.
Defined.

Local Close Scope float_scope.

(** ** Failures before the prediction stage *)

Section Aborts.

Context {F : Type} `{Number F}.
Variables Image Tensor Interpreter : Type.
Variable rt : Runtime (F:=F) Image Tensor Interpreter.

(** A weight sum that compares equal to zero makes the division of line
    231 raise; nothing has been called yet and [result] is untouched. *)
Lemma zero_sum_raises (image : Image) (w1 w2 : F) (p : Process Interpreter) :
  eqb (add w1 w2) zero = true ->
  ne (add w1 w2) one = true ->
  try_block rt image w1 w2 (mkFrame p initial_result) =
    (inl (ZeroDivisionError "float division by zero"),
     mkFrame p initial_result).
Proof.
  intros Hz Hn. unfold try_block, bind, lift, normalized_weights, truediv.
  now rewrite Hn, Hz.
Qed.

(** X6. The division of the normalization is the only statement of the [try]
    block that can raise: whatever reaches the handler is its
    [ZeroDivisionError], raised before any call and any update. *)
Lemma only_normalization_raises (image : Image) (w1 w2 : F)
  (p : Process Interpreter) (e : PyException) (fr : Frame Interpreter) :
  try_block rt image w1 w2 (mkFrame p initial_result) = (inl e, fr) ->
  e = ZeroDivisionError "float division by zero"
  /\ fr = mkFrame p initial_result
  /\ eqb (add w1 w2) zero = true.
Proof.
  destruct (normalized_weights w1 w2) as [e' | [sw mw]] eqn:Hn.
  - destruct (normalized_weights_inl _ _ Hn) as [He [Hz _]].
    unfold try_block, bind, lift. rewrite Hn.
    intros Hrun. inversion Hrun; subst. auto.
  - revert Hn. call_cases; intros; discriminate.
Qed.

(** C8. When a load attempted by a call fails, the call returns the record
    with no fused score, no per-model score and the load diagnostic, and it
    neither preprocesses nor predicts, whichever model did load. *)
Theorem load_failure_fails_call (image : Image) (w1 w2 : F)
  (p : Process Interpreter) (path : string) :
  let out := predict_beauty_ensemble rt image w1 w2 p in
  List.In (EvLoad path false) (events_since p (snd out)) ->
  fst out = mkResult None None None (Some "Failed to load one or both models")
  /\ (forall m ok, ~ List.In (EvPreprocess m ok) (events_since p (snd out)))
  /\ (forall m ok, ~ List.In (EvPredict m ok) (events_since p (snd out))).
Proof.
  call_cases; intros Hin;
    which_event;
    (split; [reflexivity |]); split; intros m ok Hev;
    no_such_event.
Qed.

(** C7, as the code has it. A failure inside one model's stage never raises
    out of the [try] block and leaves that model without a score.  When the
    stage is the prediction and the other model's prediction succeeded, the
    fused score is the score [S] the other model returned; when the other
    prediction failed too there is no fused score.  When the stage is the
    preprocessing, the call ends there: the record has no score at all,
    carries the preprocessing diagnostic, and no prediction is run. *)
Theorem stage_failure_is_caught (image : Image) (w1 w2 : F)
  (p : Process Interpreter) (m : Model) :
  let out := predict_beauty_ensemble rt image w1 w2 p in
  let evs := events_since p (snd out) in
  List.In (EvPreprocess m false) evs \/ List.In (EvPredict m false) evs ->
  (exists fr,
     try_block rt image w1 w2 (mkFrame p initial_result) = (inr tt, fr))
  /\ score_of m (fst out) = None
  /\ (List.In (EvPredict m false) evs ->
      List.In (EvPredict (other m) true) evs ->
      exists h t S,
        slot (other m) (snd out) = Some h
        /\ preprocess_for rt (other m) image = Some t
        /\ predict_with_tflite rt h t = Some S
        /\ score_of (other m) (fst out) = Some S
        /\ ensemble_score (fst out) = Some S)
  /\ (List.In (EvPredict m false) evs ->
      List.In (EvPredict (other m) false) evs ->
      ensemble_score (fst out) = None)
  /\ (List.In (EvPredict m false) evs ->
      ensemble_score (fst out) = score_of (other m) (fst out))
  /\ (List.In (EvPreprocess m false) evs ->
      fst out =
        mkResult None None None
          (Some "Failed to preprocess image for one or both models")
      /\ forall m' ok, ~ List.In (EvPredict m' ok) evs).
Proof.
  intros out evs Hin.
  assert (Hold :
    (exists fr,
       try_block rt image w1 w2 (mkFrame p initial_result) = (inr tt, fr))
    /\ score_of m (fst out) = None
    /\ (List.In (EvPredict m false) evs ->
        List.In (EvPredict (other m) false) evs ->
        ensemble_score (fst out) = None)
    /\ (List.In (EvPredict m false) evs ->
        ensemble_score (fst out) = score_of (other m) (fst out))
    /\ (List.In (EvPreprocess m false) evs ->
        fst out =
          mkResult None None None
            (Some "Failed to preprocess image for one or both models")
        /\ forall m' ok, ~ List.In (EvPredict m' ok) evs)).
  { revert Hin. subst evs out. unfold predict_beauty_ensemble.
    destruct (try_block rt image w1 w2 (mkFrame p initial_result))
      as [[e | []] fr] eqn:Hrun; revert Hrun;
      destruct m; call_cases; intros Hrun; inversion Hrun; subst; simpl;
      events_of_call; rewrite ?events_since_same; simpl;
      intros Hin;
      which_event;
      (split; [eexists; reflexivity |]); (split; [reflexivity |]);
      (split; [intros Ha Hb; which_event; try reflexivity;
               exfalso; no_such_event |]);
      split; intros Hev;
      which_event;
      try reflexivity;
      (split; [reflexivity |]); intros m' ok Hp;
      no_such_event. }
  destruct Hold as (Hreturns & Hnone & Hboth & Hsame & Hpre).
  split; [exact Hreturns |]. split; [exact Hnone |].
  split.
  - intros Hfail Hok.
    assert (Hok' : List.In (EvPredict (other m) true)
                     (events_since p (snd out))) by exact Hok.
    assert (Hfail' : List.In (EvPredict (other (other m)) false)
                       (events_since p (snd out)))
      by (destruct m; exact Hfail).
    destruct (survivor_is_fused rt image w1 w2 p (other m) Hok' Hfail')
      as (h & t & S & Hh & Ht & HS & Hs & _ & Hf & _).
    exists h, t, S. repeat split; assumption.
  - split; [exact Hboth |]. split; [exact Hsame | exact Hpre].
Qed.

End Aborts.

Local Open Scope float_scope.

Lemma load_failure_fails_call_witness :
  let rt := Scripted.runtime
              (with_missing (String.eqb MEBEAUTY_MODEL_PATH)
                            (Some 3) (Some 4)) in
  let out := predict_beauty_ensemble rt tt 0.5 0.5
               (fresh_process Scripted.Handle) in
  events_since (fresh_process Scripted.Handle) (snd out) =
    [EvLoad MEBEAUTY_MODEL_PATH false; EvLoad SCUT_MODEL_PATH true]
  /\ fst out =
       mkResult None None None
         (Some "Failed to load one or both models"%string).
Proof.
  split; [reflexivity |].
  refine (proj1 (load_failure_fails_call
                   (Scripted.runtime
                      (with_missing (String.eqb MEBEAUTY_MODEL_PATH)
                                    (Some 3) (Some 4)))
                   tt 0.5 0.5 (fresh_process Scripted.Handle)
                   MEBEAUTY_MODEL_PATH _)).
  vm_compute. tauto.
Defined.

(** C7 as stated fails: the image cannot be prepared for SCUT only, the
    MEBeauty model is loaded, its image is prepared and it would score 4.0,
    yet the call returns no fused score and never runs MEBeauty. *)
Lemma preprocessing_failure_aborts_call :
  let rt := Scripted.runtime (scut_image_broken (Some 3) (Some 4)) in
  let out := predict_beauty_ensemble rt tt 0.5 0.5
               (fresh_process Scripted.Handle) in
  events_since (fresh_process Scripted.Handle) (snd out) =
    [EvPreprocess MEBeauty true; EvPreprocess SCUT false;
     EvLoad MEBEAUTY_MODEL_PATH true; EvLoad SCUT_MODEL_PATH true]
  /\ predict_with_tflite rt (1%nat, MEBEAUTY_MODEL_PATH) MEBeauty = Some 4
  /\ ensemble_score (fst out) = None
  /\ ~ (ensemble_score (fst out) = Some 4)
  /\ fst out =
       mkResult None None None
         (Some "Failed to preprocess image for one or both models"%string).
Proof.
  repeat split; try reflexivity. vm_compute. discriminate.
Qed.

Lemma stage_failure_is_caught_witness :
  let p := fresh_process Scripted.Handle in
  let unprepared :=
    predict_beauty_ensemble
      (Scripted.runtime (scut_image_broken (Some 3) (Some 4))) tt 0.5 0.5 p in
  let scut_fails :=
    predict_beauty_ensemble
      (Scripted.runtime (Scripted.healthy None (Some 4))) tt 0.5 0.5 p in
  let mebeauty_fails :=
    predict_beauty_ensemble
      (Scripted.runtime (Scripted.healthy (Some 3) None)) tt 0.5 0.5 p in
  (List.In (EvPreprocess SCUT false) (events_since p (snd unprepared))
   /\ score_of SCUT (fst unprepared) = None
   /\ fst unprepared =
        mkResult None None None
          (Some "Failed to preprocess image for one or both models"%string))
  /\ (List.In (EvPredict SCUT false) (events_since p (snd scut_fails))
      /\ List.In (EvPredict MEBeauty true) (events_since p (snd scut_fails))
      /\ score_of SCUT (fst scut_fails) = None
      /\ ensemble_score (fst scut_fails) = Some 4)
  /\ (List.In (EvPredict MEBeauty false) (events_since p (snd mebeauty_fails))
      /\ List.In (EvPredict SCUT true) (events_since p (snd mebeauty_fails))
      /\ score_of MEBeauty (fst mebeauty_fails) = None
      /\ ensemble_score (fst mebeauty_fails) = Some 3).
Proof.
  cbv zeta. split; [| split].
  - assert (Hin : List.In (EvPreprocess SCUT false)
                    (events_since (fresh_process Scripted.Handle)
                       (snd (predict_beauty_ensemble
                               (Scripted.runtime
                                  (scut_image_broken (Some 3) (Some 4)))
                               tt 0.5 0.5 (fresh_process Scripted.Handle)))))
      by (vm_compute; tauto).
    split; [exact Hin |].
    destruct (stage_failure_is_caught
                (Scripted.runtime (scut_image_broken (Some 3) (Some 4)))
                tt 0.5 0.5 (fresh_process Scripted.Handle) SCUT
                (or_introl Hin)) as (_ & Hnone & _ & _ & _ & Hpre).
    split; [exact Hnone | exact (proj1 (Hpre Hin))].
  - assert (Hfail : List.In (EvPredict SCUT false)
                      (events_since (fresh_process Scripted.Handle)
                         (snd (predict_beauty_ensemble
                                 (Scripted.runtime
                                    (Scripted.healthy None (Some 4)))
                                 tt 0.5 0.5
                                 (fresh_process Scripted.Handle)))))
      by (vm_compute; tauto).
    assert (Hok : List.In (EvPredict (other SCUT) true)
                    (events_since (fresh_process Scripted.Handle)
                       (snd (predict_beauty_ensemble
                               (Scripted.runtime
                                  (Scripted.healthy None (Some 4)))
                               tt 0.5 0.5
                               (fresh_process Scripted.Handle)))))
      by (vm_compute; tauto).
    split; [exact Hfail | split; [exact Hok |]].
    destruct (stage_failure_is_caught
                (Scripted.runtime (Scripted.healthy None (Some 4)))
                tt 0.5 0.5 (fresh_process Scripted.Handle) SCUT
                (or_intror Hfail)) as (_ & Hnone & Hsurvivor & _ & _ & _).
    split; [exact Hnone |].
    destruct (Hsurvivor Hfail Hok) as (h & t & S & _ & _ & _ & Hs & Hf).
    rewrite Hf. symmetry. exact Hs.
  - assert (Hfail : List.In (EvPredict MEBeauty false)
                      (events_since (fresh_process Scripted.Handle)
                         (snd (predict_beauty_ensemble
                                 (Scripted.runtime
                                    (Scripted.healthy (Some 3) None))
                                 tt 0.5 0.5
                                 (fresh_process Scripted.Handle)))))
      by (vm_compute; tauto).
    assert (Hok : List.In (EvPredict (other MEBeauty) true)
                    (events_since (fresh_process Scripted.Handle)
                       (snd (predict_beauty_ensemble
                               (Scripted.runtime
                                  (Scripted.healthy (Some 3) None))
                               tt 0.5 0.5
                               (fresh_process Scripted.Handle)))))
      by (vm_compute; tauto).
    split; [exact Hfail | split; [exact Hok |]].
    destruct (stage_failure_is_caught
                (Scripted.runtime (Scripted.healthy (Some 3) None))
                tt 0.5 0.5 (fresh_process Scripted.Handle) MEBeauty
                (or_intror Hfail)) as (_ & Hnone & Hsurvivor & _ & _ & _).
    split; [exact Hnone |].
    destruct (Hsurvivor Hfail Hok) as (h & t & S & _ & _ & _ & Hs & Hf).
    rewrite Hf. symmetry. exact Hs.
Defined.

(** ** Both weights zero *)

Section ZeroWeights.

Variables Image Tensor Interpreter : Type.
Variable rt : Runtime (F:=float) Image Tensor Interpreter.

(** C5, as the code has it. With both weights zero the normalization
    divides by zero before any model is requested: the [try] block raises
    [ZeroDivisionError] with the process untouched, and the handler returns
    the record with no score and the catch-all diagnostic.  No load, no
    preprocessing and no prediction takes place. *)
Theorem zero_weights_fail_before_model_work (image : Image)
  (p : Process Interpreter) :
  try_block rt image 0 0 (mkFrame p initial_result) =
    (inl (ZeroDivisionError "float division by zero"),
     mkFrame p initial_result)
  /\ predict_beauty_ensemble rt image 0 0 p =
       (mkResult None None None
          (Some "Error in ensemble prediction: float division by zero"%string),
        p)
  /\ events_since p (snd (predict_beauty_ensemble rt image 0 0 p)) = [].
Proof.
  assert (Hraise := zero_sum_raises rt image 0 0 p eq_refl eq_refl).
  split; [exact Hraise |].
  unfold predict_beauty_ensemble. rewrite Hraise. simpl.
  split; [reflexivity | apply events_since_same].
Qed.

End ZeroWeights.

(** C5 as stated fails: with weights (0, 0) the call is not rejected as a
    [ConfigurationError]; what is raised is the interpreter's own
    [ZeroDivisionError], and the diagnostic is the one the catch-all
    handler gives to any exception. *)
Lemma zero_weights_not_configuration_error :
  let rt := Scripted.runtime (Scripted.healthy (Some 3) (Some 4)) in
  let p := fresh_process Scripted.Handle in
  ~ rejected_as rt tt 0 0 p "ConfigurationError"
  /\ rejected_as rt tt 0 0 p "ZeroDivisionError"
  /\ error (fst (predict_beauty_ensemble rt tt 0 0 p)) =
       Some "Error in ensemble prediction: float division by zero"%string
  /\ mentions "ConfigurationError"
       "Error in ensemble prediction: float division by zero" = false.
Proof.
  cbv zeta. split; [| split; [| split; reflexivity]].
  - intros (e & fr & Hrun & Hclass).
    vm_compute in Hrun. inversion Hrun; subst e. discriminate Hclass.
  - eexists; eexists; split; reflexivity.
Qed.

Local Close Scope float_scope.

(** ** The interpreter cache *)

Section Cache.

Context {F : Type} `{Number F}.
Variables Image Tensor Interpreter : Type.
Variable rt : Runtime (F:=F) Image Tensor Interpreter.

Lemma get_model_hit (m : Model) (p : Process Interpreter) (h : Interpreter) :
  slot m p = Some h -> get_model rt m p = (Some h, p).
Proof.
  destruct m; simpl; unfold get_scut_model, get_mebeauty_model;
    intros Hs; now rewrite Hs.
Qed.

Lemma get_model_miss (m : Model) (p : Process Interpreter) :
  slot m p = None ->
  get_model rt m p =
    (loaded_now rt m p,
     set_slot m (loaded_now rt m p)
       (emit (EvLoad (model_path m) (present (loaded_now rt m p))) p)).
Proof.
  destruct m; simpl;
    unfold get_scut_model, get_mebeauty_model, load_tflite_model, loaded_now;
    intros Hs; rewrite Hs; simpl;
    match goal with
    | |- context [tflite_Interpreter rt ?n ?path] =>
        destruct (tflite_Interpreter rt n path)
    end; reflexivity.
Qed.

Lemma get_model_slot (m : Model) (p : Process Interpreter) :
  slot m (snd (get_model rt m p)) = fst (get_model rt m p).
Proof.
  destruct (slot m p) as [h |] eqn:Hs.
  - now rewrite (get_model_hit m p Hs).
  - rewrite (get_model_miss m p Hs). destruct m; reflexivity.
Qed.

(** No call ever empties or replaces a filled slot. *)
Lemma run_call_keeps_slot (m : Model) (c : Call (F:=F) Image)
  (p : Process Interpreter) (h : Interpreter) :
  slot m p = Some h -> slot m (run_call rt c p) = Some h.
Proof.
  intros Hs. destruct c as [m' | image w1 w2]; simpl.
  - destruct (slot m' p) as [h' |] eqn:Hs'.
    + now rewrite (get_model_hit m' p Hs').
    + rewrite (get_model_miss m' p Hs').
      destruct m, m'; simpl in *; congruence.
  - revert Hs. destruct m; simpl; call_cases; congruence.
Qed.

Lemma run_calls_keep_slot (m : Model) (cs : list (Call (F:=F) Image))
  (p : Process Interpreter) (h : Interpreter) :
  slot m p = Some h -> slot m (run_calls rt cs p) = Some h.
Proof.
  revert p. induction cs as [| c cs IH]; intros p Hs; simpl; [exact Hs |].
  apply IH. now apply run_call_keeps_slot.
Qed.

(** C9. A getter that returns a handle has left it in the slot, and after
    any further calls the getter returns that handle with the process
    unchanged, hence without a load.  A getter that returns nothing made
    one load attempt that failed and left the slot empty, and the next
    getter attempts the load again and returns what that attempt yields. *)
Theorem cache_memoizes_successes_only (m : Model) (p p1 : Process Interpreter)
  (r : option Interpreter) :
  get_model rt m p = (r, p1) ->
  match r with
  | Some h =>
      forall later : list (Call (F:=F) Image),
        let p2 := run_calls rt later p1 in
        get_model rt m p2 = (Some h, p2)
  | None =>
      events_since p p1 = [EvLoad (model_path m) false]
      /\ slot m p1 = None
      /\ fst (get_model rt m p1) = loaded_now rt m p1
      /\ events_since p1 (snd (get_model rt m p1)) =
           [EvLoad (model_path m) (present (loaded_now rt m p1))]
  end.
Proof.
  intros Hget.
  assert (Hslot : slot m p1 = r).
  { pose proof (get_model_slot m p) as Hs. now rewrite Hget in Hs. }
  destruct r as [h |].
  - intros later p2. apply get_model_hit.
    now apply run_calls_keep_slot.
  - destruct (slot m p) as [h |] eqn:Hs.
    + rewrite (get_model_hit m p Hs) in Hget. discriminate.
    + rewrite (get_model_miss m p Hs) in Hget.
      inversion Hget as [[Hr Hp1]]. rewrite Hr in *.
      split.
      { destruct m; simpl; unfold emit; simpl;
          apply (events_since_prefix p _ _ [EvLoad _ false]). }
      rewrite Hp1. split; [exact Hslot |].
      rewrite (get_model_miss m p1 Hslot). simpl.
      split; [reflexivity |].
      destruct m; simpl; unfold emit; simpl;
        apply (events_since_prefix p1 _ _ [EvLoad _ _]).
Qed.

(** Run alone, the three statements of a getter are the getter. *)
Lemma steps_are_getter (m : Model) (p : Process Interpreter) :
  getter_steps rt m p =
    (Returned (fst (get_model rt m p)), snd (get_model rt m p)).
Proof.
  unfold getter_steps.
  destruct (slot m p) as [h |] eqn:Hs.
  - rewrite (get_model_hit m p Hs). simpl. rewrite Hs. simpl.
    now rewrite Hs.
  - rewrite (get_model_miss m p Hs). simpl. rewrite Hs. simpl.
    unfold load_tflite_model, loaded_now.
    destruct (tflite_Interpreter rt (load_attempts p) (model_path m));
      destruct m; reflexivity.
Qed.

Lemma nth_error_after_repeat (a x : Pc Interpreter) (k : nat)
  (tl : list (Pc Interpreter)) :
  List.nth_error (List.repeat a k ++ x :: tl)%list k = Some x.
Proof.
  induction k as [| k IH]; simpl; [reflexivity | exact IH].
Qed.

Lemma update_nth_after_repeat (a x y : Pc Interpreter) (k : nat)
  (tl : list (Pc Interpreter)) :
  update_nth k y (List.repeat a k ++ x :: tl)%list
  = (List.repeat a k ++ y :: tl)%list.
Proof.
  induction k as [| k IH]; simpl; [reflexivity | now rewrite IH].
Qed.

Lemma step_caller_after_repeat (m : Model) (a x : Pc Interpreter) (k : nat)
  (tl : list (Pc Interpreter)) (q : Process Interpreter) :
  step_caller rt m k (mkPool q (List.repeat a k ++ x :: tl)%list)
  = mkPool (snd (step rt m x q))
           (List.repeat a k ++ fst (step rt m x q) :: tl)%list.
Proof.
  unfold step_caller; simpl. rewrite nth_error_after_repeat.
  destruct (step rt m x q) as [pc' q']; simpl.
  now rewrite update_nth_after_repeat.
Qed.

(** A caller scheduled for three steps in a row runs the getter. *)
Lemma caller_runs_alone (m : Model) (a : Pc Interpreter) (k : nat)
  (tl : list (Pc Interpreter)) (q : Process Interpreter) :
  run_schedule rt m [k; k; k]
    (mkPool q (List.repeat a k ++ AtTest :: tl)%list)
  = mkPool (snd (get_model rt m q))
           (List.repeat a k ++ Returned (fst (get_model rt m q)) :: tl)%list.
Proof.
  pose proof (steps_are_getter m q) as Hg. unfold getter_steps in Hg.
  unfold run_schedule; simpl List.fold_left.
  rewrite step_caller_after_repeat.
  destruct (step rt m AtTest q) as [pc1 q1]; simpl.
  rewrite step_caller_after_repeat.
  destruct (step rt m pc1 q1) as [pc2 q2]; simpl.
  rewrite step_caller_after_repeat.
  now rewrite Hg.
Qed.

Lemma repeat_then_one (a : Pc Interpreter) (k : nat)
  (tl : list (Pc Interpreter)) :
  (List.repeat a k ++ a :: tl)%list = (List.repeat a (S k) ++ tl)%list.
Proof.
  induction k as [| k IH]; simpl; [reflexivity |].
  simpl in IH. now rewrite IH.
Qed.

Lemma one_at_a_time_next (first n : nat) :
  one_at_a_time first (S n)
  = ([first; first; first] ++ one_at_a_time (S first) n)%list.
Proof. reflexivity. Qed.

(** Once the slot is filled, callers that run one after another all
    return its content and leave the process as it is. *)
Lemma one_at_a_time_hits (m : Model) (h : Interpreter)
  (q : Process Interpreter) (j k : nat) :
  slot m q = Some h ->
  run_schedule rt m (one_at_a_time k j)
    (mkPool q (List.repeat (Returned (Some h)) k
               ++ List.repeat AtTest j)%list)
  = mkPool q (List.repeat (Returned (Some h)) (k + j)).
Proof.
  intros Hs. revert k. induction j as [| j IH]; intros k.
  - simpl. now rewrite List.app_nil_r, Nat.add_0_r.
  - rewrite one_at_a_time_next. unfold run_schedule in *.
    rewrite List.fold_left_app. simpl List.repeat.
    pose proof (caller_runs_alone m (Returned (Some h)) k
                  (List.repeat AtTest j) q) as Hk.
    unfold run_schedule in Hk. rewrite Hk.
    rewrite (get_model_hit m q Hs). simpl fst. simpl snd.
    rewrite repeat_then_one, IH. now rewrite Nat.add_succ_r.
Qed.

(** C10, as the code has it. When the requests do not overlap, a first use
    whose load succeeds performs one load and every caller returns the
    handle that load produced. *)
Theorem first_use_one_at_a_time_loads_once (m : Model) (n : nat)
  (p : Process Interpreter) (h : Interpreter) :
  slot m p = None ->
  tflite_Interpreter rt (load_attempts p) (model_path m) = inr h ->
  let pool := run_schedule rt m (one_at_a_time 0 (S n)) (entering (S n) p) in
  callers pool = List.repeat (Returned (Some h)) (S n)
  /\ events_since p (shared pool) = [EvLoad (model_path m) true]
  /\ loads_of (model_path m) (events_since p (shared pool)) = 1%nat.
Proof.
  intros Hs Hload.
  rewrite one_at_a_time_next. unfold entering, run_schedule.
  rewrite List.fold_left_app.
  pose proof (caller_runs_alone m AtTest 0
                (List.repeat AtTest n) p) as H0.
  unfold run_schedule in H0. simpl List.repeat in *. simpl List.app in H0.
  rewrite H0. rewrite (get_model_miss m p Hs).
  unfold loaded_now. rewrite Hload. simpl fst. simpl snd. simpl present.
  set (q := set_slot m (Some h) (emit (EvLoad (model_path m) true) p)).
  assert (Hq : slot m q = Some h) by (destruct m; reflexivity).
  pose proof (@one_at_a_time_hits m h q n 1 Hq) as Hrest.
  unfold run_schedule in Hrest. simpl List.repeat in Hrest.
  simpl List.app in Hrest. rewrite Hrest. simpl.
  assert (Hev : events_since p q = [EvLoad (model_path m) true]).
  { subst q. destruct m; simpl; unfold emit; simpl;
      apply (events_since_prefix p _ _ [EvLoad _ true]). }
  rewrite Hev. destruct m; repeat split; reflexivity.
Qed.

End Cache.

Local Open Scope float_scope.

Lemma cache_memoizes_successes_only_witness :
  let rt := Scripted.runtime first_load_fails in
  let p0 := fresh_process Scripted.Handle in
  let p1 := snd (get_model rt SCUT p0) in
  let p2 := snd (get_model rt SCUT p1) in
  let p3 := run_calls rt [Get MEBeauty; Predict tt 0.5 0.5; Get SCUT] p2 in
  get_model rt SCUT p0 = (None, p1)
  /\ slot SCUT p1 = None
  /\ get_model rt SCUT p1 = (Some (1%nat, SCUT_MODEL_PATH), p2)
  /\ get_model rt SCUT p3 = (Some (1%nat, SCUT_MODEL_PATH), p3).
Proof.
  cbv zeta.
  split; [reflexivity |].
  split.
  - exact (proj1 (proj2 (cache_memoizes_successes_only
                           (Scripted.runtime first_load_fails) SCUT
                           (fresh_process Scripted.Handle) eq_refl))).
  - split; [reflexivity |].
    exact (cache_memoizes_successes_only
             (Scripted.runtime first_load_fails) SCUT
             (snd (get_model (Scripted.runtime first_load_fails) SCUT
                     (fresh_process Scripted.Handle)))
             eq_refl
             [Get MEBeauty; Predict tt 0.5 0.5; Get SCUT]).
Defined.

(** C10 as stated fails: two callers enter the SCUT getter of a fresh
    process; both pass the test before either has assigned the slot, so
    each performs its own load and they return different interpreters. *)
Lemma overlapping_first_use_loads_twice :
  let rt := Scripted.runtime (Scripted.healthy (Some 3) (Some 4)) in
  let p := fresh_process Scripted.Handle in
  let pool := run_schedule rt SCUT [0; 1; 0; 0; 1; 1]%nat (entering 2 p) in
  callers pool = [Returned (Some (0%nat, SCUT_MODEL_PATH));
                  Returned (Some (1%nat, SCUT_MODEL_PATH))]
  /\ events_since p (shared pool) =
       [EvLoad SCUT_MODEL_PATH true; EvLoad SCUT_MODEL_PATH true]
  /\ loads_of SCUT_MODEL_PATH (events_since p (shared pool)) = 2%nat
  /\ ~ (loads_of SCUT_MODEL_PATH (events_since p (shared pool)) = 1%nat
        /\ exists h, callers pool = List.repeat (Returned (Some h)) 2).
Proof.
  cbv zeta. repeat split; try reflexivity.
  intros [Hone _]. vm_compute in Hone. discriminate Hone.
Qed.

Lemma first_use_one_at_a_time_loads_once_witness :
  let rt := Scripted.runtime (Scripted.healthy (Some 3) (Some 4)) in
  let p := fresh_process Scripted.Handle in
  let pool := run_schedule rt SCUT (one_at_a_time 0 3) (entering 3 p) in
  slot SCUT p = None
  /\ callers pool =
       List.repeat (Returned (Some (0%nat, SCUT_MODEL_PATH))) 3
  /\ loads_of SCUT_MODEL_PATH (events_since p (shared pool)) = 1%nat.
Proof.
  cbv zeta. split; [reflexivity |].
  destruct (first_use_one_at_a_time_loads_once
              (Scripted.runtime (Scripted.healthy (Some 3) (Some 4)))
              SCUT 2 (fresh_process Scripted.Handle)
              (h := (0%nat, SCUT_MODEL_PATH)) eq_refl eq_refl)
    as [Hcallers [_ Hloads]].
  split; [exact Hcallers | exact Hloads].
Defined.

Local Close Scope float_scope.

(** ** Normalization and convexity *)

Local Open Scope float_scope.

(** C4 as stated fails: with weights (0.1, 0.3) the quotients 0.1/0.4 and
    0.3/0.4 round to 0.25 and 0.7499999999999999, whose sum is not 1.0, so a
    call given the pre-normalized pair divides once more and fuses the same
    two scores to a different number. *)
Lemma prenormalized_weights_fuse_differently :
  let rt := Scripted.runtime (Scripted.healthy (Some 3) (Some 4)) in
  let p := fresh_process Scripted.Handle in
  let a := 0.1 in
  let b := 0.3 in
  let given := predict_beauty_ensemble rt tt a b p in
  let prenormalized :=
    predict_beauty_ensemble rt tt (a / (a + b)) (b / (a + b)) p in
  PrimFloat.ltb 0 a = true /\ PrimFloat.ltb 0 b = true
  /\ scut_score (fst given) = scut_score (fst prenormalized)
  /\ mebeauty_score (fst given) = mebeauty_score (fst prenormalized)
  /\ ensemble_score (fst given) = Some 3.7499999999999996
  /\ ensemble_score (fst prenormalized) = Some 3.75
  /\ ensemble_score (fst given) <> ensemble_score (fst prenormalized).
Proof.
  cbv zeta. repeat split; try reflexivity.
  vm_compute. discriminate.
Qed.

(** C6 as stated fails: with weights (0.1, 0.3) and both models scoring
    1.0 the fused score is 0.9999999999999999, below both scores and below
    the scale; with weights (0.1, 0.6) and both models scoring 5.0 it is
    5.000000000000001, above both scores and above the scale. *)
Lemma fused_score_leaves_score_interval :
  let p := fresh_process Scripted.Handle in
  let low :=
    fst (predict_beauty_ensemble
           (Scripted.runtime (Scripted.healthy (Some 1) (Some 1)))
           tt 0.1 0.3 p) in
  let high :=
    fst (predict_beauty_ensemble
           (Scripted.runtime (Scripted.healthy (Some 5) (Some 5)))
           tt 0.1 0.6 p) in
  (scut_score low = Some 1 /\ mebeauty_score low = Some 1
   /\ ensemble_score low = Some 0.9999999999999999
   /\ between (min 1 1) (max 1 1) 0.9999999999999999 = false
   /\ between 1 5 0.9999999999999999 = false)
  /\ (scut_score high = Some 5 /\ mebeauty_score high = Some 5
      /\ ensemble_score high = Some 5.000000000000001
      /\ between (min 5 5) (max 5 5) 5.000000000000001 = false
      /\ between 1 5 5.000000000000001 = false).
Proof.
  cbv zeta. repeat split; reflexivity.
Qed.

(** Weights whose sum overflows: 1e308 + 1e308 is infinite, both quotients
    are 0.0, and the scores 3.0 and 4.0 fuse to 0.0.  The call given the
    quotients themselves divides by their sum 0.0 and ends in the handler. *)
Lemma overflowing_weights_fuse_to_zero :
  let rt := Scripted.runtime (Scripted.healthy (Some 3) (Some 4)) in
  let p := fresh_process Scripted.Handle in
  let a := 1e308 in
  let b := 1e308 in
  let given := fst (predict_beauty_ensemble rt tt a b p) in
  let prenormalized :=
    fst (predict_beauty_ensemble rt tt (a / (a + b)) (b / (a + b)) p) in
  PrimFloat.ltb 0 a = true /\ PrimFloat.ltb 0 b = true
  /\ normalized_weights a b = inr (0, 0)
  /\ given = mkResult (Some 0) (Some 3) (Some 4) None
  /\ between (min 3 4) (max 3 4) 0 = false
  /\ prenormalized
     = mkResult None None None
         (Some "Error in ensemble prediction: float division by zero").
Proof.
  cbv zeta. repeat split; reflexivity.
Qed.

Local Close Scope float_scope.

Section Renormalization.

Context {F : Type} `{Number F}.
Variables Image Tensor Interpreter : Type.
Variables given_rt normalized_rt : Runtime (F:=F) Image Tensor Interpreter.

(** C4, as the code has it. Let [(a', b')] be the pair a call with weights
    [(a, b)] fuses with: the quotients [a/(a+b)] and [b/(a+b)] when the sum
    is not one, the weights themselves when it is.  When [a' + b'] compares
    equal to one, a call with [(a, b)] and a call with [(a', b')] that store
    the same two per-model scores return the same fused score, the weighted
    sum under [(a', b')].  The two calls are independent: each has its own
    image, process and library outcomes. *)
Theorem normalized_pair_fuses_alike (image image' : Image) (a b : F)
  (p p' : Process Interpreter) (s m : F) :
  let a' := if ne (add a b) one then div a (add a b) else a in
  let b' := if ne (add a b) one then div b (add a b) else b in
  let given := fst (predict_beauty_ensemble given_rt image a b p) in
  let normalized :=
    fst (predict_beauty_ensemble normalized_rt image' a' b' p') in
  eqb (add a' b') one = true ->
  scut_score given = Some s -> mebeauty_score given = Some m ->
  scut_score normalized = Some s -> mebeauty_score normalized = Some m ->
  ensemble_score given = Some (add (mul a' s) (mul b' m))
  /\ ensemble_score normalized = ensemble_score given.
Proof.
  intros a' b' given normalized Hone Hs Hm Hs' Hm'.
  destruct (fused_under_normalized_weights given_rt image a b p Hs Hm)
    as (sw & mw & Hn & Hfused).
  destruct (fused_under_normalized_weights normalized_rt image' a' b' p'
              Hs' Hm')
    as (sw' & mw' & Hn' & Hfused').
  apply normalized_weights_inr in Hn as [Hn _].
  assert (Hpair : (sw, mw) = (a', b')).
  { rewrite Hn. subst a' b'. now destruct (ne (add a b) one). }
  injection Hpair as -> ->.
  assert (Hsecond : normalized_weights a' b' = inr (a', b')).
  { unfold normalized_weights, ne. now rewrite Hone. }
  rewrite Hsecond in Hn'. injection Hn' as <- <-.
  fold given in Hfused. fold normalized in Hfused'.
  split; [exact Hfused | now rewrite Hfused, Hfused'].
Qed.

End Renormalization.

Local Open Scope float_scope.

Lemma normalized_pair_fuses_alike_witness :
  let rt := Scripted.runtime (Scripted.healthy (Some 3) (Some 4)) in
  let p := fresh_process Scripted.Handle in
  PrimFloat.eqb (1 / (1 + 3) + 3 / (1 + 3)) 1 = true
  /\ ensemble_score (fst (predict_beauty_ensemble rt tt 1 3 p)) = Some 3.75
  /\ ensemble_score
       (fst (predict_beauty_ensemble rt tt (1 / (1 + 3)) (3 / (1 + 3)) p))
     = ensemble_score (fst (predict_beauty_ensemble rt tt 1 3 p)).
Proof.
  cbv zeta. split; [reflexivity |].
  assert (Hone : eqb (add (if ne (add 1 3) one then div 1 (add 1 3) else 1)
                          (if ne (add 1 3) one then div 3 (add 1 3) else 3))
                     one = true) by reflexivity.
  exact (normalized_pair_fuses_alike
           (Scripted.runtime (Scripted.healthy (Some 3) (Some 4)))
           (Scripted.runtime (Scripted.healthy (Some 3) (Some 4)))
           tt tt 1 3
           (fresh_process Scripted.Handle) (fresh_process Scripted.Handle)
           Hone eq_refl eq_refl eq_refl eq_refl).
Defined.

Local Close Scope float_scope.

(** ** The order of binary64 numbers and the order of their values *)

Lemma digits2_pos_bounds (m : positive) :
  (2 ^ (Z.pos (digits2_pos m) - 1) <= Z.pos m < 2 ^ Z.pos (digits2_pos m))%Z.
Proof.
  induction m as [m IH | m IH |]; simpl digits2_pos.
  - rewrite Pos2Z.inj_succ.
    replace (Z.succ (Z.pos (digits2_pos m)) - 1)%Z
      with (Z.succ (Z.pos (digits2_pos m) - 1)) by lia.
    rewrite !Z.pow_succ_r by lia. lia.
  - rewrite Pos2Z.inj_succ.
    replace (Z.succ (Z.pos (digits2_pos m)) - 1)%Z
      with (Z.succ (Z.pos (digits2_pos m) - 1)) by lia.
    rewrite !Z.pow_succ_r by lia. lia.
  - simpl. lia.
Qed.

(** What the format says of a finite number: the exponent is at least
    -1074, the mantissa has at most 53 bits, and exactly 53 unless the
    exponent is the least one. *)
Lemma bounded_binary64 (m : positive) (e : Z) :
  bounded prec emax m e = true ->
  (-1074 <= e)%Z
  /\ (Z.pos m < 2 ^ 53)%Z
  /\ (e = (-1074)%Z \/ (2 ^ 52 <= Z.pos m)%Z).
Proof.
  unfold bounded, canonical_mantissa, fexp, SpecFloat.emin, prec, emax.
  intros Hb. apply andb_true_iff in Hb as [Hc _].
  apply Z.eqb_eq in Hc.
  pose proof (digits2_pos_bounds m) as [Hlo Hhi].
  set (d := Z.pos (digits2_pos m)) in *.
  assert (Hd : (0 < d)%Z) by (subst d; lia).
  change (3 - 1024 - 53)%Z with (-1074)%Z in Hc.
  assert (Hle : (d <= 53)%Z) by lia.
  split; [lia |]. split.
  - eapply Z.lt_le_trans; [exact Hhi |].
    apply Z.pow_le_mono_r; lia.
  - destruct (Z.eq_dec e (-1074)) as [He | He]; [now left | right].
    assert (d = 53%Z) by lia.
    replace (52)%Z with (d - 1)%Z by lia. exact Hlo.
Qed.

Lemma magnitude_positive (m : positive) (e : Z) :
  bounded prec emax m e = true -> (0 < magnitude m e)%Z.
Proof.
  intros Hb. apply bounded_binary64 in Hb as (He & _ & _).
  unfold magnitude. apply Z.mul_pos_pos; [lia |].
  apply Z.pow_pos_nonneg; lia.
Qed.

Lemma higher_exponent_is_larger (m1 m2 : positive) (e1 e2 : Z) :
  bounded prec emax m1 e1 = true ->
  bounded prec emax m2 e2 = true ->
  (e1 < e2)%Z ->
  (magnitude m1 e1 < magnitude m2 e2)%Z.
Proof.
  intros H1 H2 Hlt. unfold magnitude.
  apply bounded_binary64 in H1 as (He1 & Hm1 & _).
  apply bounded_binary64 in H2 as (He2 & _ & [He | Hm2]); [lia |].
  assert (Hp1 : (0 < 2 ^ (e1 + 1074))%Z) by (apply Z.pow_pos_nonneg; lia).
  assert (Hstep : (2 * 2 ^ (e1 + 1074) <= 2 ^ (e2 + 1074))%Z).
  { rewrite <- Z.pow_succ_r by lia. apply Z.pow_le_mono_r; lia. }
  change (2 ^ 53)%Z with (2 * 2 ^ 52)%Z in Hm1.
  set (P1 := (2 ^ (e1 + 1074))%Z) in *. set (P2 := (2 ^ (e2 + 1074))%Z) in *.
  set (T := (2 ^ 52)%Z) in *.
  assert (0 < T)%Z by (subst T; lia).
  nia.
Qed.

Lemma same_exponent_compares_mantissas (m1 m2 : positive) (e : Z) :
  bounded prec emax m1 e = true ->
  (magnitude m1 e ?= magnitude m2 e)%Z = Pos.compare_cont Eq m1 m2.
Proof.
  intros Hb. apply bounded_binary64 in Hb as (He & _ & _).
  unfold magnitude.
  rewrite <- Zmult_compare_compat_r
    by (apply Z.lt_gt, Z.pow_pos_nonneg; lia).
  reflexivity.
Qed.

(** The comparison of the format is the comparison of the step counts. *)
Lemma SFcompare_steps (x y : spec_float) (a b : Z) :
  SpecFloat.valid_binary prec emax x = true ->
  SpecFloat.valid_binary prec emax y = true ->
  SFsteps x = Some a -> SFsteps y = Some b ->
  SFcompare x y = Some (a ?= b)%Z.
Proof.
  destruct x as [sx | sx | | sx mx ex], y as [sy | sy | | sy my ey];
    unfold SFcompare, SFsteps, SpecFloat.valid_binary; try discriminate;
    intros Hx Hy [= <-] [= <-]; [reflexivity | | |]; f_equal; symmetry.
  - pose proof (magnitude_positive _ _ Hy).
    destruct sy; [apply Z.compare_gt_iff | apply Z.compare_lt_iff]; lia.
  - pose proof (magnitude_positive _ _ Hx).
    destruct sx; [apply Z.compare_lt_iff | apply Z.compare_gt_iff]; lia.
  - pose proof (magnitude_positive _ _ Hx).
    pose proof (magnitude_positive _ _ Hy).
    destruct (Z.compare_spec ex ey) as [Heq | Hlt | Hgt].
    + subst ey. destruct sx, sy.
      * rewrite Z.compare_opp, Z.compare_antisym.
        now rewrite (same_exponent_compares_mantissas _ my _ Hx).
      * apply Z.compare_lt_iff; lia.
      * apply Z.compare_gt_iff; lia.
      * exact (same_exponent_compares_mantissas _ my _ Hx).
    + pose proof (higher_exponent_is_larger _ _ Hx Hy Hlt).
      destruct sx, sy;
        [apply Z.compare_gt_iff | apply Z.compare_lt_iff
         | apply Z.compare_gt_iff | apply Z.compare_lt_iff]; lia.
    + pose proof (higher_exponent_is_larger _ _ Hy Hx Hgt).
      destruct sx, sy;
        [apply Z.compare_lt_iff | apply Z.compare_lt_iff
         | apply Z.compare_gt_iff | apply Z.compare_gt_iff]; lia.
Qed.

Lemma leb_steps (x y : float) (a b : Z) :
  SFsteps (Prim2SF x) = Some a -> SFsteps (Prim2SF y) = Some b ->
  PrimFloat.leb x y = Z.leb a b.
Proof.
  intros Ha Hb. rewrite leb_spec. unfold SFleb.
  rewrite (SFcompare_steps _ _ (Prim2SF_valid x) (Prim2SF_valid y) Ha Hb).
  unfold Z.leb. now destruct (a ?= b)%Z.
Qed.

(** Python's [<=] on two finite floats is [<=] on the numbers they stand
    for. *)
Lemma leb_has_value (x y : float) (a b : Q) :
  has_value x a -> has_value y b ->
  (PrimFloat.leb x y = true <-> (a <= b)%Q).
Proof.
  intros (n & Hn & Ha) (k & Hk & Hb).
  rewrite (leb_steps _ _ Hn Hk), <- Ha, <- Hb.
  unfold Qle; simpl Qnum; simpl Qden.
  rewrite Z.leb_le. split; intros Hle.
  - apply Z.mul_le_mono_nonneg_r; [lia | exact Hle].
  - apply Z.mul_le_mono_pos_r in Hle; [exact Hle | lia].
Qed.

Lemma between_has_value (lo hi x : float) (l h q : Q) :
  has_value lo l -> has_value hi h -> has_value x q ->
  (between lo hi x = true <-> (l <= q /\ q <= h)%Q).
Proof.
  intros Hlo Hhi Hx. unfold between.
  change (leb lo x) with (PrimFloat.leb lo x).
  change (leb x hi) with (PrimFloat.leb x hi).
  rewrite andb_true_iff, (leb_has_value Hlo Hx), (leb_has_value Hx Hhi).
  reflexivity.
Qed.

Lemma has_value_one : has_value 1%float 1%Q.
Proof.
  eexists. split; [vm_compute; reflexivity | vm_compute; reflexivity].
Qed.

Lemma has_value_five : has_value 5%float 5%Q.
Proof.
  eexists. split; [vm_compute; reflexivity | vm_compute; reflexivity].
Qed.

Lemma convex_combination_between (a b u v : Q) :
  (0 <= a -> 0 <= b -> a + b == 1 -> u <= v ->
   u <= a * u + b * v /\ a * u + b * v <= v)%Q.
Proof.
  intros Ha Hb Hab Huv. split; nra.
Qed.

Lemma convex_combination_between' (a b u v : Q) :
  (0 <= a -> 0 <= b -> a + b == 1 -> v <= u ->
   v <= a * u + b * v /\ a * u + b * v <= u)%Q.
Proof.
  intros Ha Hb Hab Huv. split; nra.
Qed.

Section ExactFusion.

Variables Image Tensor Interpreter : Type.
Variable rt : Runtime (F:=float) Image Tensor Interpreter.

(** C6, as the code has it.  Take a call on binary64 that stores both
    scores [s] and [m], standing for the reals [u] and [v], and let
    [(sw, mw)] be its normalized weights, standing for [a] and [b].  When
    [a] and [b] are non-negative with [a + b = 1] and the fused score the
    code computes stands for the real weighted sum [a*u + b*v] (no
    operation rounded, overflowed or underflowed on the way), the fused
    score lies between the smaller and the larger score in Python's own
    [<=], and between 1.0 and 5.0 when both scores do. *)
Theorem exactly_fused_score_is_convex (image : Image) (w1 w2 : float)
  (p : Process Interpreter) (sw mw s m : float) (a b u v : Q) :
  let r := fst (predict_beauty_ensemble rt image w1 w2 p) in
  scut_score r = Some s ->
  mebeauty_score r = Some m ->
  normalized_weights w1 w2 = inr (sw, mw) ->
  has_value sw a -> has_value mw b ->
  has_value s u -> has_value m v ->
  (0 <= a)%Q -> (0 <= b)%Q -> (a + b == 1)%Q ->
  has_value (sw * s + mw * m)%float (a * u + b * v)%Q ->
  exists fused,
    ensemble_score r = Some fused
    /\ fused = (sw * s + mw * m)%float
    /\ between (min s m) (max s m) fused = true
    /\ (between 1%float 5%float s = true ->
        between 1%float 5%float m = true ->
        between 1%float 5%float fused = true).
Proof.
  intros r Hs Hm Hn Ha Hb Hu Hv Ha0 Hb0 Hab Hf.
  destruct (fused_under_normalized_weights rt image w1 w2 p Hs Hm)
    as (sw' & mw' & Hn' & Hfused).
  rewrite Hn in Hn'. injection Hn' as <- <-.
  exists (sw * s + mw * m)%float.
  split; [exact Hfused |]. split; [reflexivity |]. split.
  - unfold min, max. change (leb s m) with (PrimFloat.leb s m).
    destruct (PrimFloat.leb s m) eqn:Hle.
    + apply (between_has_value Hu Hv Hf).
      apply convex_combination_between; try assumption.
      now apply (leb_has_value Hu Hv).
    + apply (between_has_value Hv Hu Hf).
      apply convex_combination_between'; try assumption.
      destruct (Qlt_le_dec v u) as [Hlt | Hge]; [now apply Qlt_le_weak |].
      apply (leb_has_value Hu Hv) in Hge. congruence.
  - intros Hsb Hmb.
    apply (between_has_value has_value_one has_value_five Hu) in Hsb.
    apply (between_has_value has_value_one has_value_five Hv) in Hmb.
    apply (between_has_value has_value_one has_value_five Hf).
    destruct Hsb, Hmb. split; nra.
Qed.

End ExactFusion.

Local Open Scope float_scope.

Lemma exactly_fused_score_is_convex_witness :
  let rt := Scripted.runtime (Scripted.healthy (Some 3) (Some 4)) in
  let r := fst (predict_beauty_ensemble rt tt 1 3
                  (fresh_process Scripted.Handle)) in
  normalized_weights 1 3 = inr (0.25, 0.75)
  /\ has_value 0.25 (1 # 4) /\ has_value 0.75 (3 # 4)
  /\ has_value 3 3%Q /\ has_value 4 4%Q
  /\ has_value (0.25 * 3 + 0.75 * 4) ((1 # 4) * 3 + (3 # 4) * 4)%Q
  /\ exists fused,
       ensemble_score r = Some fused
       /\ fused = 3.75
       /\ between (min 3 4) (max 3 4) fused = true
       /\ between 1 5 fused = true.
Proof.
  cbv zeta.
  assert (Hn : normalized_weights 1 3 = inr (0.25, 0.75)) by reflexivity.
  assert (Ha : has_value 0.25 (1 # 4))
    by (eexists; split; vm_compute; reflexivity).
  assert (Hb : has_value 0.75 (3 # 4))
    by (eexists; split; vm_compute; reflexivity).
  assert (Hu : has_value 3 3%Q)
    by (eexists; split; vm_compute; reflexivity).
  assert (Hv : has_value 4 4%Q)
    by (eexists; split; vm_compute; reflexivity).
  assert (Hf : has_value (0.25 * 3 + 0.75 * 4) ((1 # 4) * 3 + (3 # 4) * 4)%Q)
    by (eexists; split; vm_compute; reflexivity).
  assert (Ha0 : (0 <= 1 # 4)%Q) by (vm_compute; discriminate).
  assert (Hb0 : (0 <= 3 # 4)%Q) by (vm_compute; discriminate).
  assert (Hab : ((1 # 4) + (3 # 4) == 1)%Q) by reflexivity.
  repeat (split; [assumption |]).
  destruct (exactly_fused_score_is_convex
              (Scripted.runtime (Scripted.healthy (Some 3) (Some 4)))
              tt 1 3 (fresh_process Scripted.Handle)
              eq_refl eq_refl Hn Ha Hb Hu Hv Ha0 Hb0 Hab Hf)
    as (fused & Hfused & Hval & Hbetween & Hscale).
  exists fused. split; [exact Hfused |]. split; [exact Hval |].
  split; [exact Hbetween |]. apply Hscale; reflexivity.
Defined.

Local Close Scope float_scope.

(** ** The record and the trace of any call *)

Section Records.

Context {F : Type} `{Number F}.
Variables Image Tensor Interpreter : Type.
Variable rt : Runtime (F:=F) Image Tensor Interpreter.

(** X1. The diagnostic of a record is false in Python's sense exactly when
    the record holds the fused score and both per-model scores; a
    diagnostic that is present is never the empty string. *)
Theorem no_diagnostic_iff_complete (image : Image) (w1 w2 : F)
  (p : Process Interpreter) :
  let r := fst (predict_beauty_ensemble rt image w1 w2 p) in
  (Callers.truthy (error r) = false <->
   exists fused s m,
     ensemble_score r = Some fused
     /\ scut_score r = Some s /\ mebeauty_score r = Some m)
  /\ (error r = None <-> Callers.truthy (error r) = false).
Proof.
  call_cases; (split; split); intros Hx;
    try discriminate; try reflexivity;
    try (destruct Hx as (fused & s & m & Hf & Hs & Hm); discriminate);
    eexists; eexists; eexists; repeat split; reflexivity.
Qed.

(** X2. A record has a fused score exactly when at least one model
    scored. *)
Theorem fused_absent_iff_nobody_scored (image : Image) (w1 w2 : F)
  (p : Process Interpreter) :
  let r := fst (predict_beauty_ensemble rt image w1 w2 p) in
  ensemble_score r = None <->
  scut_score r = None /\ mebeauty_score r = None.
Proof.
  call_cases; split; intros Hx; try discriminate; auto;
    destruct Hx; discriminate.
Qed.

(** X3. A model's score is stored exactly when its prediction ran in this
    call and produced a value. *)
Theorem score_stored_iff_predicted (image : Image) (w1 w2 : F)
  (p : Process Interpreter) (m : Model) :
  let out := predict_beauty_ensemble rt image w1 w2 p in
  score_of m (fst out) <> None <->
  List.In (EvPredict m true) (events_since p (snd out)).
Proof.
  destruct m; call_cases; split; intros Hx;
    try congruence; try tauto; try discriminate;
    no_such_event.
Qed.

End Records.

Section Stages.

Context {F : Type} `{Number F}.
Variables Image Tensor Interpreter : Type.
Variable rt : Runtime (F:=F) Image Tensor Interpreter.

(** X4. An image is prepared for a model only in a call that holds both
    interpreters, none of whose loads failed, and the image is then
    prepared for the other model too. *)
Theorem preprocessing_is_for_both_models (image : Image) (w1 w2 : F)
  (p : Process Interpreter) (m : Model) (ok : bool) :
  let out := predict_beauty_ensemble rt image w1 w2 p in
  let evs := events_since p (snd out) in
  List.In (EvPreprocess m ok) evs ->
  (exists ok', List.In (EvPreprocess (other m) ok') evs)
  /\ slot SCUT (snd out) <> None /\ slot MEBeauty (snd out) <> None
  /\ (forall path, ~ List.In (EvLoad path false) evs).
Proof.
  destruct m; call_cases; intros Hin; which_event;
    (split; [eexists; simpl; eauto |]);
    (split; [congruence |]); (split; [congruence |]);
    intros path Hp; no_such_event.
Qed.

(** X5. A model is run only after both images were prepared, and the other
    model is then run too, whatever the weights and whatever the first
    model returned. *)
Theorem prediction_is_for_both_models (image : Image) (w1 w2 : F)
  (p : Process Interpreter) (m : Model) (ok : bool) :
  let out := predict_beauty_ensemble rt image w1 w2 p in
  let evs := events_since p (snd out) in
  List.In (EvPredict m ok) evs ->
  (exists ok', List.In (EvPredict (other m) ok') evs)
  /\ List.In (EvPreprocess SCUT true) evs
  /\ List.In (EvPreprocess MEBeauty true) evs.
Proof.
  destruct m; call_cases; intros Hin; which_event;
    (split; [eexists; simpl; eauto |]); simpl; auto 10.
Qed.

End Stages.

(** ** Weights that cancel *)

Local Open Scope float_scope.

(** A binary64 number that compares equal to zero is one of the two zeros,
    and so does not compare equal to one. *)
Lemma binary64_zero_is_not_one (x : float) :
  PrimFloat.eqb x 0 = true -> PrimFloat.eqb x 1 = false.
Proof.
  assert (H0 : Prim2SF 0 = S754_zero false) by (vm_compute; reflexivity).
  assert (H1 : exists m e, Prim2SF 1 = S754_finite false m e)
    by (vm_compute; eauto).
  destruct H1 as (m1 & e1 & H1).
  rewrite !FloatAxioms.eqb_spec, H0, H1.
  unfold SFeqb, SFcompare.
  destruct (Prim2SF x) as [s | s | | s m e]; try destruct s;
    try discriminate; reflexivity.
Qed.

Section Cancelling.

Variables Image Tensor Interpreter : Type.
Variable rt : Runtime (F:=float) Image Tensor Interpreter.

(** X7. On binary64, weights whose sum compares equal to zero, such as two
    opposite weights, make the call return the catch-all record with the
    division message and leave the process as it was: no interpreter is
    requested and nothing is run. *)
Theorem cancelling_weights_reach_the_handler (image : Image) (w1 w2 : float)
  (p : Process Interpreter) :
  PrimFloat.eqb (w1 + w2) 0 = true ->
  predict_beauty_ensemble rt image w1 w2 p =
    (mkResult None None None
       (Some "Error in ensemble prediction: float division by zero"%string),
     p).
Proof.
  intros Hz.
  assert (Hn : ne (add w1 w2) one = true).
  { unfold ne. simpl. now rewrite (binary64_zero_is_not_one Hz). }
  assert (Hz' : eqb (add w1 w2) zero = true) by exact Hz.
  unfold predict_beauty_ensemble.
  now rewrite (zero_sum_raises rt image w1 w2 p Hz' Hn).
Qed.

End Cancelling.

Lemma cancelling_weights_reach_the_handler_witness :
  let rt := Scripted.runtime (Scripted.healthy (Some 3) (Some 4)) in
  let p := fresh_process Scripted.Handle in
  PrimFloat.eqb (0.5 + -0.5) 0 = true
  /\ fst (predict_beauty_ensemble rt tt 0.5 (-0.5) p) =
       mkResult None None None
         (Some "Error in ensemble prediction: float division by zero"%string)
  /\ snd (predict_beauty_ensemble rt tt 0.5 (-0.5) p) = p.
Proof.
  cbv zeta. split; [reflexivity |].
  rewrite (cancelling_weights_reach_the_handler
             (Scripted.runtime (Scripted.healthy (Some 3) (Some 4)))
             tt (w1:=0.5) (w2:=-0.5) (fresh_process Scripted.Handle)
             eq_refl).
  split; reflexivity.
Defined.

Lemma only_normalization_raises_witness :
  let rt := Scripted.runtime (Scripted.healthy (Some 3) (Some 4)) in
  let fr0 := mkFrame (fresh_process Scripted.Handle) initial_result in
  try_block rt tt 0 0 fr0 =
    (inl (ZeroDivisionError "float division by zero"), fr0)
  /\ PrimFloat.eqb (0 + 0) 0 = true.
Proof.
  cbv zeta. split; [reflexivity |].
  exact (proj2 (proj2 (only_normalization_raises
                         (Scripted.runtime
                            (Scripted.healthy (Some 3) (Some 4)))
                         tt 0 0 (fresh_process Scripted.Handle)
                         eq_refl))).
Defined.

Local Close Scope float_scope.

(** ** Calls in sequence *)

Section Sequences.

Context {F : Type} `{Number F}.
Variables Image Tensor Interpreter : Type.
Variable rt : Runtime (F:=F) Image Tensor Interpreter.

Lemma other_slot_kept (m : Model) (p : Process Interpreter) :
  slot (other m) (snd (get_model rt m p)) = slot (other m) p.
Proof.
  destruct (slot m p) as [h |] eqn:Hs.
  - now rewrite (get_model_hit rt m p Hs).
  - rewrite (get_model_miss rt m p Hs). destruct m; reflexivity.
Qed.

(** The stages after the getters, read off a call that finds both
    interpreters cached: a call that obtained [a] and [b] returns the
    record of that call, and its process differs from the one the getters
    left only by the trace. *)
Lemma call_factors (image : Image) (w1 w2 sw mw : F)
  (p p1 p2 : Process Interpreter) (a b : Interpreter) (t : list Event) :
  normalized_weights w1 w2 = inr (sw, mw) ->
  get_scut_model rt p = (Some a, p1) ->
  get_mebeauty_model rt p1 = (Some b, p2) ->
  let cold := predict_beauty_ensemble rt image w1 w2 p in
  let warm := predict_beauty_ensemble rt image w1 w2
                (mkProcess (Some a) (Some b) t) in
  fst cold = fst warm
  /\ scut_interpreter (snd cold) = scut_interpreter p2
  /\ mebeauty_interpreter (snd cold) = mebeauty_interpreter p2
  /\ exists new,
       trace (snd cold) = (new ++ trace p2)%list
       /\ trace (snd warm) = (new ++ t)%list
       /\ forall path ok, ~ List.In (EvLoad path ok) new.
Proof.
  intros Hn Hg1 Hg2.
  unfold predict_beauty_ensemble, try_block, bind, lift, global.
  rewrite Hn. simpl.
  rewrite Hg1. simpl. rewrite Hg2. simpl.
  unfold observe, update, emit, preprocess_for_scut, preprocess_for_mebeauty,
    predict_with_tflite.
  destruct (scut_pipeline rt image); destruct (mebeauty_pipeline rt image);
    simpl;
    try (repeat split; try reflexivity;
         eexists [_; _]; repeat split; try reflexivity;
         intros path ok Hin; simpl in Hin; no_such_event).
  destruct (tflite_invoke rt a t0); destruct (tflite_invoke rt b t1); simpl;
    repeat split; try reflexivity;
    eexists [_; _; _; _]; repeat split; try reflexivity;
    intros path ok Hin; simpl in Hin; no_such_event.
Qed.

Lemma events_since_of_trace (q q' : Process Interpreter) (new : list Event) :
  trace q' = (new ++ trace q)%list -> events_since q q' = new.
Proof.
  destruct q' as [a b l]. simpl. intros ->. apply events_since_prefix.
Qed.

(** A call whose normalization raises leaves the process as it is. *)
Lemma call_that_raises (image : Image) (w1 w2 : F) (p : Process Interpreter)
  (e : PyException) :
  normalized_weights w1 w2 = inl e ->
  predict_beauty_ensemble rt image w1 w2 p
  = (mkResult None None None
       (Some ("Error in ensemble prediction: " ++ str e)), p).
Proof.
  intros Hn. unfold predict_beauty_ensemble, try_block, bind, lift.
  now rewrite Hn.
Qed.

(** A call that could not obtain both interpreters ends with the process
    the getters left. *)
Lemma call_without_interpreters (image : Image) (w1 w2 sw mw : F)
  (p p1 p2 : Process Interpreter) (sm mm : option Interpreter) :
  normalized_weights w1 w2 = inr (sw, mw) ->
  get_scut_model rt p = (sm, p1) ->
  get_mebeauty_model rt p1 = (mm, p2) ->
  sm = None \/ mm = None ->
  predict_beauty_ensemble rt image w1 w2 p
  = (mkResult None None None (Some "Failed to load one or both models"), p2).
Proof.
  intros Hn Hg1 Hg2 Hnone.
  unfold predict_beauty_ensemble, try_block, bind, lift, global.
  rewrite Hn. simpl. rewrite Hg1. simpl. rewrite Hg2. simpl.
  destruct sm, mm; destruct Hnone; try discriminate; reflexivity.
Qed.

(** The slots after the two getters are what the getters returned. *)
Lemma slots_after_getters (p p1 p2 : Process Interpreter)
  (sm mm : option Interpreter) :
  get_scut_model rt p = (sm, p1) ->
  get_mebeauty_model rt p1 = (mm, p2) ->
  scut_interpreter p2 = sm /\ mebeauty_interpreter p2 = mm.
Proof.
  intros Hg1 Hg2.
  pose proof (get_model_slot rt SCUT p) as Hs.
  pose proof (get_model_slot rt MEBeauty p1) as Hm.
  pose proof (other_slot_kept MEBeauty p1) as Hk.
  simpl in Hs, Hm, Hk. rewrite Hg1 in Hs. rewrite Hg2 in Hm, Hk.
  simpl in *. split; congruence.
Qed.

(** A call that obtained both interpreters does not report a load
    failure. *)
Lemma call_with_interpreters (image : Image) (w1 w2 sw mw : F)
  (p p1 p2 : Process Interpreter) (a b : Interpreter) :
  normalized_weights w1 w2 = inr (sw, mw) ->
  get_scut_model rt p = (Some a, p1) ->
  get_mebeauty_model rt p1 = (Some b, p2) ->
  error (fst (predict_beauty_ensemble rt image w1 w2 p))
  <> Some "Failed to load one or both models".
Proof.
  intros Hn Hg1 Hg2.
  unfold predict_beauty_ensemble, try_block, bind, lift, global.
  rewrite Hn. simpl. rewrite Hg1. simpl. rewrite Hg2. simpl.
  unfold observe, update, emit, preprocess_for_scut, preprocess_for_mebeauty,
    predict_with_tflite.
  destruct (scut_pipeline rt image); destruct (mebeauty_pipeline rt image);
    simpl; try discriminate.
  destruct (tflite_invoke rt a t); destruct (tflite_invoke rt b t0); simpl;
    discriminate.
Qed.

(** X8. A call that finds both interpreters in the cache attempts no load,
    leaves both interpreters where they were and does not report a load
    failure, whatever the image, the weights and the outcomes of the
    library calls. *)
Theorem warm_call_attempts_no_load (image : Image) (w1 w2 : F)
  (p : Process Interpreter) (a b : Interpreter) :
  slot SCUT p = Some a ->
  slot MEBeauty p = Some b ->
  let out := predict_beauty_ensemble rt image w1 w2 p in
  slot SCUT (snd out) = Some a
  /\ slot MEBeauty (snd out) = Some b
  /\ (forall path ok,
        ~ List.In (EvLoad path ok) (events_since p (snd out)))
  /\ error (fst out) <> Some "Failed to load one or both models".
Proof.
  intros Ha Hb out. subst out.
  pose proof (get_model_hit rt SCUT p Ha) as Hg1.
  pose proof (get_model_hit rt MEBeauty p Hb) as Hg2.
  simpl in Ha, Hb, Hg1, Hg2.
  destruct (normalized_weights w1 w2) as [e | [sw mw]] eqn:Hn.
  - rewrite (call_that_raises image w1 w2 p Hn). simpl.
    split; [exact Ha | split; [exact Hb | split]].
    + intros path ok. now rewrite events_since_same.
    + discriminate.
  - edestruct call_factors with (image := image) (t := @nil Event)
      as (_ & Hsc & Hme & new & Hcold & _ & Hnoload);
      [exact Hn | exact Hg1 | exact Hg2 |].
    simpl. rewrite Hsc, Hme.
    split; [exact Ha | split; [exact Hb | split]].
    + intros path ok.
      erewrite events_since_of_trace; [apply Hnoload | exact Hcold].
    + eapply call_with_interpreters; [exact Hn | exact Hg1 | exact Hg2].
Qed.

Lemma successful_loads_app (path : string) (new old : list Event) :
  (forall q ok, ~ List.In (EvLoad q ok) new) ->
  successful_loads path (new ++ old)%list = successful_loads path old.
Proof.
  intros Hnew. unfold successful_loads.
  rewrite List.filter_app, List.length_app.
  replace (List.filter (is_successful_load_of path) new) with (@nil Event);
    [reflexivity |].
  symmetry. induction new as [| e new IH]; [reflexivity |].
  simpl. destruct e as [q ok | |]; simpl.
  - exfalso. apply (Hnew q ok). now left.
  - apply IH. intros q' ok' Hin. apply (Hnew q' ok'). now right.
  - apply IH. intros q' ok' Hin. apply (Hnew q' ok'). now right.
Qed.

Lemma model_path_eqb (m' m : Model) :
  String.eqb (model_path m') (model_path m)
  = match m', m with
    | SCUT, SCUT | MEBeauty, MEBeauty => true
    | _, _ => false
    end.
Proof. destruct m', m; reflexivity. Qed.

Lemma getter_keeps_loaded_once (m' : Model) (p : Process Interpreter) :
  loaded_once p -> loaded_once (snd (get_model rt m' p)).
Proof.
  intros Hinv m. specialize (Hinv m).
  destruct (slot m' p) as [h |] eqn:Hs.
  - now rewrite (get_model_hit rt m' p Hs).
  - rewrite (get_model_miss rt m' p Hs). cbn [snd].
    replace (trace (set_slot m' (loaded_now rt m' p)
                      (emit (EvLoad (model_path m')
                                    (present (loaded_now rt m' p))) p)))
      with (EvLoad (model_path m') (present (loaded_now rt m' p)) :: trace p)
      by (destruct m'; reflexivity).
    unfold successful_loads in *. cbn [List.filter is_successful_load_of].
    rewrite model_path_eqb.
    destruct m', m;
      match goal with
      | |- context [loaded_now rt ?x p] => destruct (loaded_now rt x p)
      end; simpl in *; rewrite ?Hs in Hinv; simpl in *; congruence.
Qed.

(** Where a call leaves the process: untouched, or as the two getters left
    it up to events that are not loads. *)
Lemma call_keeps_getter_state (image : Image) (w1 w2 : F)
  (p : Process Interpreter) :
  let p' := snd (predict_beauty_ensemble rt image w1 w2 p) in
  let p2 := snd (get_mebeauty_model rt (snd (get_scut_model rt p))) in
  p' = p
  \/ (scut_interpreter p' = scut_interpreter p2
      /\ mebeauty_interpreter p' = mebeauty_interpreter p2
      /\ exists new,
           trace p' = (new ++ trace p2)%list
           /\ forall path ok, ~ List.In (EvLoad path ok) new).
Proof.
  intros p' p2. subst p' p2.
  destruct (normalized_weights w1 w2) as [e | [sw mw]] eqn:Hn.
  - left. now rewrite (call_that_raises image w1 w2 p Hn).
  - right.
    destruct (get_scut_model rt p) as [sm p1] eqn:Hg1.
    destruct (get_mebeauty_model rt p1) as [mm p2] eqn:Hg2.
    cbn [snd]. rewrite Hg2. cbn [snd].
    destruct sm as [a |]; [destruct mm as [b |] |].
    + edestruct call_factors with (image := image) (t := @nil Event)
        as (_ & Hsc & Hme & new & Hcold & _ & Hnoload);
        [exact Hn | exact Hg1 | exact Hg2 |].
      split; [exact Hsc | split; [exact Hme |]].
      exists new. split; [exact Hcold | exact Hnoload].
    + erewrite call_without_interpreters;
        [| exact Hn | exact Hg1 | exact Hg2 | now right].
      repeat split. exists []. split; [reflexivity | intros ? ? []].
    + erewrite call_without_interpreters;
        [| exact Hn | exact Hg1 | exact Hg2 | now left].
      repeat split. exists []. split; [reflexivity | intros ? ? []].
Qed.

Lemma call_keeps_loaded_once (c : Call (F:=F) Image)
  (p : Process Interpreter) :
  loaded_once p -> loaded_once (run_call rt c p).
Proof.
  intros Hinv. destruct c as [m' | image w1 w2]; simpl.
  - now apply getter_keeps_loaded_once.
  - destruct (call_keeps_getter_state image w1 w2 p)
      as [Hsame | (Hsc & Hme & new & Htr & Hnoload)].
    + now rewrite Hsame.
    + pose proof (getter_keeps_loaded_once MEBeauty
                    (getter_keeps_loaded_once SCUT Hinv)) as Hinv2.
      simpl in Hinv2. intros m. specialize (Hinv2 m).
      rewrite Htr, (@successful_loads_app _ new _ Hnoload), Hinv2.
      destruct m; simpl; [rewrite Hsc | rewrite Hme]; reflexivity.
Qed.

(** X9. Starting from a fresh process, after any sequence of getter and
    predict calls each artifact has been loaded successfully exactly once
    if its slot is filled and never if its slot is empty: no sequence of
    calls loads an artifact a second time. *)
Theorem calls_load_each_artifact_once (cs : list (Call (F:=F) Image))
  (m : Model) :
  let p := run_calls rt cs (fresh_process Interpreter) in
  successful_loads (model_path m) (trace p)
  = (if present (slot m p) then 1 else 0)%nat.
Proof.
  intros p. subst p.
  assert (Hall : forall q, loaded_once q -> loaded_once (run_calls rt cs q)).
  { induction cs as [| c cs IH]; intros q Hq; simpl; [exact Hq |].
    apply IH. now apply call_keeps_loaded_once. }
  apply Hall. intros m'. destruct m'; reflexivity.
Qed.

End Sequences.

(** ** The callers *)

Section CallerFacts.

Variables Tensor Interpreter : Type.
Variable rt : Runtime (F:=float) string Tensor Interpreter.
Variable path_exists : string -> bool.

(** A record is complete, or its diagnostic is true in Python's sense. *)
Lemma record_complete_or_diagnosed (image : string) (w1 w2 : float)
  (p : Process Interpreter) :
  let r := fst (predict_beauty_ensemble rt image w1 w2 p) in
  (exists fused s m, r = mkResult (Some fused) (Some s) (Some m) None)
  \/ (Callers.truthy (error r) = true
      /\ (scut_score r = None \/ mebeauty_score r = None)).
Proof.
  call_cases; try (left; eexists; eexists; eexists; reflexivity);
    right; split; auto.
Qed.

(** X10. [main] of [test_ensemble.py] never fails while formatting a score.
    Its exit status is 0 exactly when the file exists and both models
    scored, and 1 otherwise, so a result degraded to one model exits with 1
    although it carries a fused score.  When the file does not exist the
    ensemble is not called. *)
Theorem main_exit_status (args : Callers.Args) (p : Process Interpreter) :
  let r := fst (predict_beauty_ensemble rt (Callers.image_path args)
                  (Callers.scut_weight args) (Callers.mebeauty_weight args)
                  p) in
  let run := Callers.main rt path_exists args p in
  exists code : nat,
    fst (fst run) = inr code
    /\ (code = 0%nat \/ code = 1%nat)
    /\ (code = 0%nat <->
        path_exists (Callers.image_path args) = true
        /\ scut_score r <> None /\ mebeauty_score r <> None)
    /\ (path_exists (Callers.image_path args) = false -> snd run = p).
Proof.
  intros r run. subst r run. unfold Callers.main.
  destruct (path_exists (Callers.image_path args)) eqn:Hexists; simpl.
  - pose proof (record_complete_or_diagnosed (Callers.image_path args)
                  (Callers.scut_weight args) (Callers.mebeauty_weight args)
                  p) as Hshape.
    destruct (predict_beauty_ensemble rt (Callers.image_path args)
                (Callers.scut_weight args) (Callers.mebeauty_weight args) p)
      as [r p1].
    simpl in Hshape.
    destruct Hshape as [(fused & s & m & Hr) | [Htruthy Hmissing]].
    + subst r. simpl. exists 0%nat. repeat split; auto; discriminate.
    + rewrite Htruthy. simpl. exists 1%nat.
      repeat split; auto; try discriminate.
      intros (_ & Hs & Hm). destruct Hmissing; contradiction.
  - exists 1%nat. repeat split; auto; try discriminate.
    intros (Hfalse & _). discriminate.
Qed.

(** X11. [test_ensemble] never fails while formatting a score: it returns
    the record of the call with weights (0.5, 0.5) and the process that
    call left, and it logs on the error channel exactly when the record
    carries a diagnostic. *)
Theorem test_ensemble_returns_the_record (image_path : string)
  (p : Process Interpreter) :
  let out := predict_beauty_ensemble rt image_path 0.5%float 0.5%float p in
  let run := Callers.test_ensemble rt image_path p in
  fst (fst run) = inr (fst out)
  /\ snd run = snd out
  /\ ((exists l, List.In l (snd (fst run))
                 /\ Callers.channel l = Callers.LogError)
      <-> error (fst out) <> None).
Proof.
  intros out run. subst out run. unfold Callers.test_ensemble.
  pose proof (record_complete_or_diagnosed image_path 0.5%float 0.5%float p)
    as Hshape.
  destruct (predict_beauty_ensemble rt image_path 0.5%float 0.5%float p)
    as [r p1].
  simpl in Hshape.
  destruct Hshape as [(fused & s & m & Hr) | [Htruthy _]].
  - subst r. simpl. repeat split; try congruence.
    intros (l & Hin & Hch). simpl in Hin.
    repeat destruct Hin as [Hin | Hin]; try contradiction;
      subst l; discriminate.
  - rewrite Htruthy. simpl. repeat split.
    + intros _. destruct (error r); [discriminate | discriminate Htruthy].
    + intros _. eexists. split; [right; left; reflexivity | reflexivity].
Qed.

End CallerFacts.

(** ** Overlapping callers, any schedule *)

Section Schedules.

Context {F : Type} `{Number F}.
Variables Image Tensor Interpreter : Type.
Variable rt : Runtime (F:=F) Image Tensor Interpreter.

Lemma pending_update (l : list (Pc Interpreter)) (i : nat)
  (x y : Pc Interpreter) :
  List.nth_error l i = Some x ->
  (pending (update_nth i y l) + waiting x = pending l + waiting y)%nat.
Proof.
  revert i. induction l as [| hd tl IH]; intros [| i] Hnth; simpl in *;
    try discriminate.
  - inversion Hnth; subst. Lia.lia.
  - specialize (IH i Hnth). Lia.lia.
Qed.

Lemma pending_entering (n : nat) :
  pending (List.repeat (@AtTest Interpreter) n) = n.
Proof.
  induction n as [| n IH]; simpl; [reflexivity | now rewrite IH].
Qed.

(** One statement adds at most the load its caller was waiting for. *)
Lemma step_spends_waiting (m : Model) (pc : Pc Interpreter)
  (sh : Process Interpreter) :
  exists new,
    trace (snd (step rt m pc sh)) = (new ++ trace sh)%list
    /\ (List.length new + waiting (fst (step rt m pc sh)) <= waiting pc)%nat.
Proof.
  destruct pc as [| | | r]; simpl.
  - exists []. destruct (slot m sh); simpl; split; try reflexivity; Lia.lia.
  - unfold load_tflite_model.
    destruct m;
      match goal with
      | |- context [tflite_Interpreter rt ?k ?path] =>
          destruct (tflite_Interpreter rt k path)
      end; eexists [_]; simpl; split; try reflexivity; Lia.lia.
  - exists []. simpl; split; try reflexivity; Lia.lia.
  - exists []. simpl; split; try reflexivity; Lia.lia.
Qed.

Lemma schedule_spends_waiting (m : Model) (schedule : list nat)
  (pool : Pool Interpreter) :
  exists new,
    trace (shared (run_schedule rt m schedule pool))
    = (new ++ trace (shared pool))%list
    /\ (List.length new
        + pending (callers (run_schedule rt m schedule pool))
        <= pending (callers pool))%nat.
Proof.
  revert pool. induction schedule as [| i schedule IH]; intros pool.
  - exists []. simpl. split; [reflexivity | Lia.lia].
  - unfold run_schedule in *. simpl List.fold_left.
    destruct (IH (step_caller rt m i pool)) as (new & Htr & Hlen).
    unfold step_caller in *.
    destruct (List.nth_error (callers pool) i) as [pc |] eqn:Hnth.
    + destruct (step_spends_waiting m pc (shared pool))
        as (new1 & Htr1 & Hlen1).
      destruct (step rt m pc (shared pool)) as [pc' sh'] eqn:Hstep.
      simpl in *.
      pose proof (pending_update (callers pool) i pc' Hnth) as Hupd.
      exists (new ++ new1)%list. split.
      * rewrite Htr, Htr1. now rewrite List.app_assoc.
      * rewrite List.length_app. Lia.lia.
    + exists new. split; [exact Htr | exact Hlen].
Qed.

(** X12. However [n] callers of a getter are interleaved, they perform at
    most [n] loads between them: a caller loads at most once. *)
Theorem overlapping_callers_load_at_most_once_each (m : Model)
  (schedule : list nat) (n : nat) (p : Process Interpreter) :
  let pool := run_schedule rt m schedule (entering n p) in
  (List.length (events_since p (shared pool)) <= n)%nat
  /\ (loads_of (model_path m) (events_since p (shared pool)) <= n)%nat.
Proof.
  intros pool. subst pool.
  destruct (schedule_spends_waiting m schedule (entering n p))
    as (new & Htr & Hlen).
  simpl in Htr, Hlen. rewrite pending_entering in Hlen.
  erewrite events_since_of_trace; [| exact Htr].
  assert (Hn : (List.length new <= n)%nat) by Lia.lia.
  split; [exact Hn |].
  unfold loads_of.
  pose proof (List.filter_length_le (is_load_of (model_path m)) new). Lia.lia.
Qed.

Lemma update_keeps_bound (h : Interpreter) (l : list (Pc Interpreter))
  (i : nat) (y : Pc Interpreter) :
  List.Forall (bound_to h) l -> bound_to h y ->
  List.Forall (bound_to h) (update_nth i y l).
Proof.
  intros Hall Hy. revert i.
  induction Hall as [| hd tl Hhd Htl IH]; intros [| i]; simpl;
    constructor; auto.
Qed.

Lemma step_keeps_bound (m : Model) (h : Interpreter) (pc : Pc Interpreter)
  (sh : Process Interpreter) :
  slot m sh = Some h -> bound_to h pc ->
  snd (step rt m pc sh) = sh /\ bound_to h (fst (step rt m pc sh)).
Proof.
  intros Hs Hpc. destruct pc as [| | | r]; simpl in *;
    rewrite ?Hs; simpl; auto; contradiction.
Qed.

(** X13. With a getter's slot already filled, overlapping callers are
    harmless under every schedule: the process does not change, so nothing
    is loaded, and every caller that has returned holds the cached
    handle. *)
Theorem filled_slot_is_safe_to_share (m : Model) (schedule : list nat)
  (n : nat) (p : Process Interpreter) (h : Interpreter) :
  slot m p = Some h ->
  let pool := run_schedule rt m schedule (entering n p) in
  shared pool = p
  /\ forall i r,
       List.nth_error (callers pool) i = Some (Returned r) -> r = Some h.
Proof.
  intros Hs pool. subst pool.
  assert (Hinv : forall pool0 : Pool Interpreter,
             shared pool0 = p ->
             List.Forall (bound_to h) (callers pool0) ->
             shared (run_schedule rt m schedule pool0) = p
             /\ List.Forall (bound_to h)
                  (callers (run_schedule rt m schedule pool0))).
  { induction schedule as [| i schedule IH]; intros pool0 Hsh Hall;
      [split; assumption |].
    unfold run_schedule in *. simpl List.fold_left. apply IH.
    - unfold step_caller.
      destruct (List.nth_error (callers pool0) i) as [pc |] eqn:Hnth;
        [| exact Hsh].
      assert (Hpc : bound_to h pc).
      { apply List.nth_error_In in Hnth.
        rewrite List.Forall_forall in Hall. now apply Hall. }
      rewrite <- Hsh in Hs.
      destruct (step_keeps_bound m pc (shared pool0) Hs Hpc) as [Hsame _].
      destruct (step rt m pc (shared pool0)); simpl in *. congruence.
    - unfold step_caller.
      destruct (List.nth_error (callers pool0) i) as [pc |] eqn:Hnth;
        [| exact Hall].
      assert (Hpc : bound_to h pc).
      { apply List.nth_error_In in Hnth.
        rewrite List.Forall_forall in Hall. now apply Hall. }
      rewrite <- Hsh in Hs.
      destruct (step_keeps_bound m pc (shared pool0) Hs Hpc) as [_ Hb].
      destruct (step rt m pc (shared pool0)); simpl in *.
      now apply update_keeps_bound. }
  destruct (Hinv (entering n p) eq_refl) as [Hsh Hall].
  { simpl. clear. induction n; simpl; constructor; simpl; auto. }
  split; [exact Hsh |].
  intros i r Hnth. apply List.nth_error_In in Hnth.
  rewrite List.Forall_forall in Hall. exact (Hall _ Hnth).
Qed.

End Schedules.

(** ** Concrete runs of the properties above *)

Local Open Scope float_scope.

Lemma preprocessing_is_for_both_models_witness :
  let rt := Scripted.runtime (scut_image_broken (Some 3) (Some 4)) in
  let p := fresh_process Scripted.Handle in
  let out := predict_beauty_ensemble rt tt 0.5 0.5 p in
  List.In (EvPreprocess SCUT false) (events_since p (snd out))
  /\ List.In (EvPreprocess MEBeauty true) (events_since p (snd out))
  /\ slot MEBeauty (snd out) <> None.
Proof.
  cbv zeta.
  assert (Hin : List.In (EvPreprocess SCUT false)
                  (events_since (fresh_process Scripted.Handle)
                     (snd (predict_beauty_ensemble
                             (Scripted.runtime
                                (scut_image_broken (Some 3) (Some 4)))
                             tt 0.5 0.5 (fresh_process Scripted.Handle)))))
    by (vm_compute; tauto).
  split; [exact Hin |].
  destruct (preprocessing_is_for_both_models
              (Scripted.runtime (scut_image_broken (Some 3) (Some 4)))
              tt 0.5 0.5 (fresh_process Scripted.Handle) SCUT false Hin)
    as [_ [_ [Hslot _]]].
  split; [vm_compute; tauto | exact Hslot].
Defined.

Lemma prediction_is_for_both_models_witness :
  let rt := Scripted.runtime (Scripted.healthy None (Some 4)) in
  let p := fresh_process Scripted.Handle in
  let out := predict_beauty_ensemble rt tt 1 0 p in
  List.In (EvPredict SCUT false) (events_since p (snd out))
  /\ (exists ok, List.In (EvPredict MEBeauty ok) (events_since p (snd out)))
  /\ ensemble_score (fst out) = Some 4.
Proof.
  cbv zeta.
  assert (Hin : List.In (EvPredict SCUT false)
                  (events_since (fresh_process Scripted.Handle)
                     (snd (predict_beauty_ensemble
                             (Scripted.runtime
                                (Scripted.healthy None (Some 4)))
                             tt 1 0 (fresh_process Scripted.Handle)))))
    by (vm_compute; tauto).
  split; [exact Hin |].
  destruct (prediction_is_for_both_models
              (Scripted.runtime (Scripted.healthy None (Some 4)))
              tt 1 0 (fresh_process Scripted.Handle) SCUT false Hin)
    as [Hother _].
  split; [exact Hother | reflexivity].
Defined.

Lemma warm_call_attempts_no_load_witness :
  let rt := Scripted.runtime (Scripted.healthy (Some 3) (Some 4)) in
  let warm := snd (predict_beauty_ensemble rt tt 0.5 0.5
                     (fresh_process Scripted.Handle)) in
  let out := predict_beauty_ensemble rt tt 0.3 0.7 warm in
  slot SCUT warm = Some (0%nat, SCUT_MODEL_PATH)
  /\ slot MEBeauty warm = Some (1%nat, MEBEAUTY_MODEL_PATH)
  /\ slot SCUT (snd out) = Some (0%nat, SCUT_MODEL_PATH)
  /\ slot MEBeauty (snd out) = Some (1%nat, MEBEAUTY_MODEL_PATH)
  /\ (forall path ok,
        ~ List.In (EvLoad path ok) (events_since warm (snd out)))
  /\ error (fst out) <> Some "Failed to load one or both models".
Proof.
  cbv zeta. split; [reflexivity | split; [reflexivity |]].
  exact (warm_call_attempts_no_load
           (Scripted.runtime (Scripted.healthy (Some 3) (Some 4)))
           tt 0.3 0.7
           (snd (predict_beauty_ensemble
                   (Scripted.runtime (Scripted.healthy (Some 3) (Some 4)))
                   tt 0.5 0.5 (fresh_process Scripted.Handle)))
           (a := (0%nat, SCUT_MODEL_PATH))
           (b := (1%nat, MEBEAUTY_MODEL_PATH))
           eq_refl eq_refl).
Defined.

Lemma filled_slot_is_safe_to_share_witness :
  let rt := Scripted.runtime (Scripted.healthy (Some 3) (Some 4)) in
  let p := snd (get_scut_model rt (fresh_process Scripted.Handle)) in
  let pool := run_schedule rt SCUT [0; 1; 0; 1; 1; 0]%nat (entering 2 p) in
  slot SCUT p = Some (0%nat, SCUT_MODEL_PATH)
  /\ shared pool = p.
Proof.
  cbv zeta. split; [reflexivity |].
  exact (proj1 (filled_slot_is_safe_to_share
                  (Scripted.runtime (Scripted.healthy (Some 3) (Some 4)))
                  SCUT [0; 1; 0; 1; 1; 0]%nat 2
                  (snd (get_scut_model
                          (Scripted.runtime
                             (Scripted.healthy (Some 3) (Some 4)))
                          (fresh_process Scripted.Handle)))
                  (h := (0%nat, SCUT_MODEL_PATH)) eq_refl)).
Defined.

Local Close Scope float_scope.
